(** * kscan_ptty: the scripted key-scan driver of ZMK

    A shallow embedding of [app/module/drivers/kscan/kscan_ptty.c]:
    the line reader [recv_line], the command parser
    [kscan_parse_command], the driver entry points and the work handler
    [kscan_ptty_work_handler], followed by the properties of the
    specification that concern them. *)

From Stdlib Require Import ZArith Ascii String List Lia.
From stdpp Require Import base list.
Import ListNotations.

Local Open Scope Z_scope.

(** ** Characters, C strings and integers *)

(** A C string is the run of characters in front of the first NUL of a
    [char] array; arrays are lists of characters updated by index. *)
Abbreviation cstring := (list ascii).

Definition NUL : ascii := ascii_of_nat 0.
Definition LF : ascii := ascii_of_nat 10.

(** The value of a [char] as an [int]. *)
Definition char_code (c : ascii) : Z := Z.of_N (N_of_ascii c).

Definition lit (s : string) : cstring := list_ascii_of_string s.

(** [cstr buf]: what [%s] prints for [buf], the characters up to the first
    NUL. *)
Fixpoint cstr (buf : list ascii) : cstring :=
  match buf with
  | [] => []
  | c :: rest => if Ascii.eqb c NUL then [] else c :: cstr rest
  end.

(** [int] is 32 bits wide; [to_int] reduces a number to it. *)
Definition INT_MIN : Z := - 2 ^ 31.
Definition INT_MAX : Z := 2 ^ 31 - 1.
Definition to_int (z : Z) : Z := (z + 2 ^ 31) mod 2 ^ 32 - 2 ^ 31.
Definition in_int (z : Z) : Prop := INT_MIN <= z <= INT_MAX.

(** ** Constants *)

Definition MAX_CMD_LEN : nat := 128.

(** The error numbers of [errno.h].  Only their being positive and pairwise
    distinct matters below. *)
Definition EINVAL : Z := 22.
Definition ENODATA : Z := 61.
Definition EOVERFLOW : Z := 139.

(** ** The line reader *)

Section LineReader.

(** The UART behind [command_uart] is any state with a polling function:
    [uart_poll_in uart c] is one call [uart_poll_in(uart, &c)], given the
    value [c] holds before the call; it yields the return value, the
    value [c] holds afterwards and the next state of the device. *)
Variable Uart : Type.
Variable uart_poll_in : Uart -> ascii -> Z * ascii * Uart.

(** How the [while] loop of [recv_line] is left. *)
Inductive loop_exit : Type :=
| LoopReturn (ret : Z) (buf : list ascii) (uart : Uart)
| LoopDone (buf : list ascii) (out : nat) (c : ascii) (uart : Uart).

(** The loop, [out] being the offset [out - buf].  Every iteration that
    goes round again has stored one character, so [MAX_CMD_LEN]
    iterations are enough (see [recv_loop_total]). *)
Fixpoint recv_loop (fuel : nat) (uart : Uart) (buf : list ascii)
    (out : nat) (c : ascii) : option loop_exit :=
  match fuel with
  | O => None
  | S fuel' =>
      let '(ret, c', uart') := uart_poll_in uart c in
      if negb (ret =? 0) then Some (LoopDone buf out c' uart')
      else if (MAX_CMD_LEN - 1 <=? out)%nat then
        Some (LoopReturn (- EOVERFLOW) buf uart')
      else if Ascii.eqb c' LF || Ascii.eqb c' NUL then
        Some (LoopDone buf out c' uart')
      else recv_loop fuel' uart' (<[out := c']> buf) (S out) c'
  end.

Definition recv_line (uart : Uart) (buf : list ascii)
    : option (Z * list ascii * Uart) :=
  match recv_loop MAX_CMD_LEN uart buf 0%nat NUL with
  | None => None
  | Some (LoopReturn ret buf' uart') => Some (ret, buf', uart')
  | Some (LoopDone buf' out c uart') =>
      if (out =? 0)%nat && Ascii.eqb c NUL then
        Some (- ENODATA, buf', uart')
      else Some (0, <[out := NUL]> buf', uart')
  end.

End LineReader.

Arguments LoopReturn {Uart}.
Arguments LoopDone {Uart}.
Arguments recv_loop {Uart}.
Arguments recv_line {Uart}.

(** A scripted UART for concrete runs: each entry is one poll, either a
    character that arrives or a failing return value which leaves the
    character untouched; past the end of the script the input buffer is
    empty and the poll returns -1. *)
Inductive poll : Type :=
| Arrives (c : ascii)
| Fails (ret : Z).

Definition script_poll_in (uart : list poll) (c : ascii)
    : Z * ascii * list poll :=
  match uart with
  | [] => (-1, c, [])
  | Arrives ch :: rest => (0, ch, rest)
  | Fails ret :: rest => (ret, c, rest)
  end.

Definition chars (s : string) : list poll := map Arrives (lit s).

(** The local array [cmd] of the work handler as a fresh stack frame may
    hold it: [MAX_CMD_LEN] characters of no meaning. *)
Definition fresh_cmd : list ascii := repeat "?"%char MAX_CMD_LEN.

(** ** [sscanf], for the formats the parser uses

    The C library is not part of the driver; what follows is the ISO C
    reading of [sscanf] on formats made of ordinary characters, white
    space and [%d]. *)

Definition isspace (c : ascii) : bool :=
  let n := char_code c in (n =? 32) || ((9 <=? n) && (n <=? 13)).

Definition isdigit (c : ascii) : bool :=
  let n := char_code c in (48 <=? n) && (n <=? 57).

Definition digit_value (c : ascii) : Z := char_code c - 48.

Inductive directive : Type :=
| Ordinary (c : ascii)
| WhiteSpace
| ConvD.

Fixpoint directives (fmt : cstring) : list directive :=
  match fmt with
  | [] => []
  | c :: rest =>
      if isspace c then WhiteSpace :: directives rest
      else if Ascii.eqb c "%" then
        match rest with
        | d :: rest' =>
            if Ascii.eqb d "d" then ConvD :: directives rest'
            else Ordinary c :: directives rest
        | [] => [Ordinary c]
        end
      else Ordinary c :: directives rest
  end.

Fixpoint skip_space (s : cstring) : cstring :=
  match s with
  | c :: rest => if isspace c then skip_space rest else s
  | [] => []
  end.

(** The longest run of decimal digits, accumulated from the left. *)
Fixpoint scan_digits (s : cstring) (acc : Z) : Z * cstring :=
  match s with
  | c :: rest =>
      if isdigit c then scan_digits rest (10 * acc + digit_value c)
      else (acc, s)
  | [] => (acc, [])
  end.

Inductive conversion : Type :=
| Converted (v : Z) (rest : cstring)
| MatchingFailure
| InputFailure.

(** [%d]: white space is skipped, then an optionally signed decimal integer
    is read.  The end of the string in front of the item is an input
    failure; an item without a digit is a matching failure.  A number that
    does not fit an [int] is undefined in ISO C; it is reduced to 32 bits
    here, and no property below relies on it. *)
Definition conv_d (s : cstring) : conversion :=
  match skip_space s with
  | [] => InputFailure
  | c :: rest =>
      let '(negative, body) :=
        if Ascii.eqb c "-" then (true, rest)
        else if Ascii.eqb c "+" then (false, rest)
        else (false, c :: rest) in
      match body with
      | d :: _ =>
          if isdigit d then
            let '(v, rest') := scan_digits body 0 in
            Converted (to_int (if negative then - v else v)) rest'
          else MatchingFailure
      | [] => MatchingFailure
      end
  end.

Definition EOF : Z := -1.

(** What [sscanf] returns when it stops after assigning [vals]: an input
    failure before the first conversion gives [EOF]. *)
Definition stopped (input_failure : bool) (vals : list Z) : Z * list Z :=
  match vals with
  | [] => if input_failure then (EOF, []) else (0, [])
  | _ => (Z.of_nat (length vals), vals)
  end.

Fixpoint scan (fmt : list directive) (s : cstring) (vals : list Z)
    : Z * list Z :=
  match fmt with
  | [] => stopped false vals
  | Ordinary c :: fmt' =>
      match s with
      | [] => stopped true vals
      | c' :: rest =>
          if Ascii.eqb c c' then scan fmt' rest vals else stopped false vals
      end
  | WhiteSpace :: fmt' => scan fmt' (skip_space s) vals
  | ConvD :: fmt' =>
      match conv_d s with
      | Converted v rest => scan fmt' rest (vals ++ [v])
      | MatchingFailure => stopped false vals
      | InputFailure => stopped true vals
      end
  end.

(** [sscanf s fmt] is the return value and the values assigned, in the
    order of the conversions. *)
Definition sscanf (s : cstring) (fmt : string) : Z * list Z :=
  scan (directives (lit fmt)) s [].

(** ** The command parser *)

(** [cmd[0]], which is the terminating NUL for the empty string. *)
Definition first_char (cmd : cstring) : ascii := hd NUL cmd.

(** The values [sscanf] assigned through [&args[0]] and [&args[1]]. *)
Definition assign (vals : list Z) (args : Z * Z) : Z * Z :=
  match vals with
  | [] => args
  | [a] => (a, snd args)
  | a :: b :: _ => (a, b)
  end.

(** [kscan_parse_command cmd args] is the return value and [args] as the
    call leaves it. *)
Definition kscan_parse_command (cmd : cstring) (args : Z * Z)
    : Z * (Z * Z) :=
  let c0 := first_char cmd in
  let scanned :=
    if Ascii.eqb c0 "p" then Some (sscanf cmd "p %d %d")
    else if Ascii.eqb c0 "r" then Some (sscanf cmd "r %d %d")
    else if Ascii.eqb c0 "w" then Some (sscanf cmd "w %d")
    else None in
  match scanned with
  | None => (- EINVAL, args)
  | Some (n, vals) =>
      let args := assign vals args in
      if Ascii.eqb c0 "p" || Ascii.eqb c0 "r" then
        if n =? 1 then (char_code c0, (fst args, 0))
        else if negb (n =? 2) then (- EINVAL, args)
        else (char_code c0, args)
      else
        if negb (n =? 1) then (- EINVAL, args)
        else (char_code c0, args)
  end.

(** ** The driver *)

Record kscan_ptty_config : Type := {
  delay_ms : Z;
  exit_after : bool
}.

(** What the log macros are given: the format and its arguments. *)
Inductive message : Type :=
| all_commands_processed
| command_too_long (cmd : cstring)
| unknown_error (code : Z)
| cmd_wait (idx ms : Z)
| cmd_key (idx : Z) (is_press : bool) (row col : Z)
| invalid_command (cmd : cstring).

(** How one run of the work handler ends: it returns, the process exits,
    or the null callback is called. *)
Inductive ending : Type :=
| Returns
| Exits (status : Z)
| NullCall.

Section Driver.

Variable Uart : Type.
Variable uart_poll_in : Uart -> ascii -> Z * ascii * Uart.

(** The callbacks a client can register; a [kscan_callback_t] value is
    [Some f] or the null pointer [None]. *)
Variable callback_fn : Type.
Definition kscan_callback_t : Type := option callback_fn.

(** The delayable work item [work] lives in the kernel: the driver only
    calls the work-queue API on it, and those calls are recorded as
    actions. *)
Record kscan_ptty_data : Type := {
  callback : kscan_callback_t;
  cmd_idx : Z
}.

(** What a driver function does to the world outside, in order. *)
Inductive action : Type :=
| LOG_INF (m : message)
| LOG_ERR (m : message)
| LOG_DBG (m : message)
| k_work_init_delayable
| k_work_schedule (ms : Z)
| k_work_cancel_delayable
| call (f : callback_fn) (row col : Z) (pressed : bool).

Definition kscan_ptty_init : list action := [k_work_init_delayable].

Definition kscan_ptty_enable_callback (config : kscan_ptty_config)
    (data : kscan_ptty_data) : Z * kscan_ptty_data * list action :=
  (0, data, [k_work_schedule (delay_ms config)]).

Definition kscan_ptty_disable_callback (data : kscan_ptty_data)
    : Z * kscan_ptty_data * list action :=
  (0, data, [k_work_cancel_delayable]).

Definition kscan_ptty_configure (config : kscan_ptty_config)
    (data : kscan_ptty_data) (cb : kscan_callback_t)
    : Z * kscan_ptty_data * list action :=
  match cb with
  | None => (- EINVAL, data, [])
  | Some f =>
      (0, {| callback := Some f; cmd_idx := cmd_idx data |},
       [k_work_schedule (delay_ms config)])
  end.

Record tick : Type := {
  effects : list action;
  outcome : ending;
  data_after : kscan_ptty_data;
  uart_after : Uart
}.

(** [(data->cmd_idx)++] *)
Definition next_cmd (data : kscan_ptty_data) : kscan_ptty_data :=
  {| callback := callback data; cmd_idx := to_int (cmd_idx data + 1) |}.

(** The second half of the handler, from [int args[2] = {-1, -1}] on.
    The debug messages are taken as compiled in. *)
Definition run_command (config : kscan_ptty_config)
    (data : kscan_ptty_data) (uart : Uart) (cmd : list ascii) : tick :=
  let '(ret, (arg0, arg1)) := kscan_parse_command (cstr cmd) (-1, -1) in
  let key (is_press : bool) :=
    let log := LOG_DBG (cmd_key (cmd_idx data) is_press arg0 arg1) in
    match callback data with
    | Some f =>
        {| effects := [log; call f arg0 arg1 is_press;
                       k_work_schedule (delay_ms config)];
           outcome := Returns;
           data_after := next_cmd data; uart_after := uart |}
    | None =>
        {| effects := [log]; outcome := NullCall;
           data_after := next_cmd data; uart_after := uart |}
    end in
  if ret =? char_code "p" then key true
  else if ret =? char_code "r" then key false
  else if ret =? char_code "w" then
    {| effects := [LOG_DBG (cmd_wait (cmd_idx data) arg0);
                   k_work_schedule arg0];
       outcome := Returns;
       data_after := next_cmd data; uart_after := uart |}
  else
    {| effects := [LOG_ERR (invalid_command (cstr cmd))];
       outcome := Returns; data_after := data; uart_after := uart |}.

(** The first [switch] of the handler, on what [recv_line] returned. *)
Definition on_recv_line (config : kscan_ptty_config)
    (data : kscan_ptty_data) (uart : Uart) (err : Z) (cmd : list ascii)
    : tick :=
  if err =? - ENODATA then
    {| effects := [LOG_INF all_commands_processed];
       outcome := if exit_after config then Exits 0 else Returns;
       data_after := data; uart_after := uart |}
  else if err =? - EOVERFLOW then
    let cmd := <[(MAX_CMD_LEN - 1)%nat := NUL]> cmd in
    {| effects := [LOG_ERR (command_too_long (cstr cmd))];
       outcome := Exits 1; data_after := data; uart_after := uart |}
  else if err =? 0 then run_command config data uart cmd
  else
    {| effects := [LOG_ERR (unknown_error (- err))];
       outcome := Exits 1; data_after := data; uart_after := uart |}.

(** One firing of the work item; [cmd] is the local array as the stack
    happens to hold it on entry. *)
Definition kscan_ptty_work_handler (config : kscan_ptty_config)
    (data : kscan_ptty_data) (uart : Uart) (cmd : list ascii)
    : option tick :=
  match recv_line uart_poll_in uart cmd with
  | None => None
  | Some (err, cmd', uart') => Some (on_recv_line config data uart' err cmd')
  end.

End Driver.

Arguments callback {callback_fn}.
Arguments cmd_idx {callback_fn}.
Arguments LOG_INF {callback_fn}.
Arguments LOG_ERR {callback_fn}.
Arguments LOG_DBG {callback_fn}.
Arguments k_work_init_delayable {callback_fn}.
Arguments k_work_schedule {callback_fn}.
Arguments k_work_cancel_delayable {callback_fn}.
Arguments call {callback_fn}.
Arguments effects {Uart callback_fn}.
Arguments outcome {Uart callback_fn}.
Arguments data_after {Uart callback_fn}.
Arguments uart_after {Uart callback_fn}.
Arguments kscan_ptty_init {callback_fn}.
Arguments kscan_ptty_enable_callback {callback_fn}.
Arguments kscan_ptty_disable_callback {callback_fn}.
Arguments kscan_ptty_configure {callback_fn}.
Arguments next_cmd {callback_fn}.
Arguments run_command {Uart callback_fn}.
Arguments on_recv_line {Uart callback_fn}.
Arguments kscan_ptty_work_handler {Uart} uart_poll_in {callback_fn}.

(** ** Vocabulary of the specification *)

(** The parsed event of the specification: how the work handler reads what
    [kscan_parse_command] returns for [args = {-1, -1}]; [None] is
    [InvalidCommand]. *)
Inductive event : Type :=
| Press (row col : Z)
| Release (row col : Z)
| Wait (duration_ms : Z).

Definition parsed_event (cmd : cstring) : option event :=
  let '(ret, (arg0, arg1)) := kscan_parse_command cmd (-1, -1) in
  if ret =? char_code "p" then Some (Press arg0 arg1)
  else if ret =? char_code "r" then Some (Release arg0 arg1)
  else if ret =? char_code "w" then Some (Wait arg0)
  else None.

(** Decimal numerals, as a script writes its integers. *)
Definition digit_char (d : Z) : ascii := ascii_of_N (Z.to_N (48 + d)).

Fixpoint show_digits (fuel : nat) (n : Z) (acc : cstring) : cstring :=
  match fuel with
  | O => acc
  | S fuel' =>
      let acc' := digit_char (n mod 10) :: acc in
      if n / 10 =? 0 then acc' else show_digits fuel' (n / 10) acc'
  end.

Definition show_nat (n : Z) : cstring :=
  show_digits (S (Z.to_nat (Z.log2 n))) n [].

Definition show_int (z : Z) : cstring :=
  if z <? 0 then "-"%char :: show_nat (- z) else show_nat z.

(** A command line: the tag followed by integer arguments, each with a
    blank in front. *)
Definition arg_text (args : list Z) : cstring :=
  concat (map (fun a => " "%char :: show_int a) args).

Definition command_line (tag : ascii) (args : list Z) : cstring :=
  tag :: arg_text args.

(** The text after a numeral does not go on with a digit. *)
Definition no_digit_ahead (rest : cstring) : Prop :=
  match rest with
  | [] => True
  | c :: _ => isdigit c = false
  end.

(** A character that is stored, neither the line feed nor the NUL. *)
Definition plain (c : ascii) : Prop := c <> LF /\ c <> NUL.

(** [store out cs buf]: [buf] after the characters [cs] were written from
    offset [out] on. *)
Fixpoint store (out : nat) (cs : list ascii) (buf : list ascii)
    : list ascii :=
  match cs with
  | [] => buf
  | c :: rest => store (S out) rest (<[out := c]> buf)
  end.

Section Feed.

Variable Uart : Type.
Variable uart_poll_in : Uart -> ascii -> Z * ascii * Uart.

(** [yields uart c cs c' uart']: from state [uart], with [c] in the
    character variable, the next polls all succeed and deliver the
    characters [cs] one after the other, leaving [c'] in the variable
    and the device in state [uart']. *)
Inductive yields : Uart -> ascii -> list ascii -> ascii -> Uart -> Prop :=
| yields_nil uart c : yields uart c [] c uart
| yields_cons uart c0 c uart1 cs c' uart' :
    uart_poll_in uart c0 = (0, c, uart1) ->
    yields uart1 c cs c' uart' ->
    yields uart c0 (c :: cs) c' uart'.

End Feed.

Arguments yields {Uart}.

(** ** Vocabulary for whole ticks *)

Definition is_call {callback_fn : Type} (a : action callback_fn) : bool :=
  match a with
  | call _ _ _ _ => true
  | _ => false
  end.

Definition is_schedule {callback_fn : Type} (a : action callback_fn) : bool :=
  match a with
  | k_work_schedule _ => true
  | _ => false
  end.

(** The line a script writes for an event. *)
Definition render (e : event) : cstring :=
  match e with
  | Press row col => command_line "p" [row; col]
  | Release row col => command_line "r" [row; col]
  | Wait ms => command_line "w" [ms]
  end.

Definition event_in_int (e : event) : Prop :=
  match e with
  | Press row col | Release row col => in_int row /\ in_int col
  | Wait ms => in_int ms
  end.

(** What a tick does for an event, [idx] being the command counter, [f] the
    registered callback and [delay] the configured period. *)
Definition event_effects {callback_fn : Type} (idx : Z) (f : callback_fn)
    (delay : Z) (e : event) : list (action callback_fn) :=
  match e with
  | Press row col =>
      [LOG_DBG (cmd_key idx true row col); call f row col true;
       k_work_schedule delay]
  | Release row col =>
      [LOG_DBG (cmd_key idx false row col); call f row col false;
       k_work_schedule delay]
  | Wait ms => [LOG_DBG (cmd_wait idx ms); k_work_schedule ms]
  end.

(** A run of white space. *)
Definition blank (ws : cstring) : Prop := Forall (fun c => isspace c = true) ws.


(** * Properties *)

(** ** C strings and buffers *)

Lemma plain_eqb (c : ascii) :
  plain c -> Ascii.eqb c LF || Ascii.eqb c NUL = false.
Proof.
  intros [Hlf Hnul].
  apply orb_false_intro; apply Ascii.eqb_neq; assumption.
Qed.

Lemma cstr_terminated (cs rest : list ascii) :
  Forall plain cs -> cstr (cs ++ NUL :: rest) = cs.
Proof.
  induction 1 as [|c cs [_ Hc] _ IH]; simpl.
  - reflexivity.
  - apply Ascii.eqb_neq in Hc. rewrite Hc, IH. reflexivity.
Qed.

Lemma store_length (cs buf : list ascii) (out : nat) :
  length (store out cs buf) = length buf.
Proof.
  revert out buf. induction cs as [|c cs IH]; intros out buf; simpl.
  - reflexivity.
  - rewrite IH. apply length_insert.
Qed.

Lemma store_take_drop (cs buf : list ascii) (out : nat) :
  (out + length cs <= length buf)%nat ->
  store out cs buf = take out buf ++ cs ++ drop (out + length cs) buf.
Proof.
  revert out buf. induction cs as [|c cs IH]; intros out buf Hlen; simpl in *.
  - rewrite Nat.add_0_r, take_drop. reflexivity.
  - rewrite IH by (rewrite length_insert; lia).
    assert (Hout : (out < length buf)%nat) by lia.
    destruct (lookup_lt_is_Some_2 buf out Hout) as [x Hx].
    rewrite (take_S_r (<[out:=c]> buf) out c)
      by (apply list_lookup_insert_eq; assumption).
    rewrite take_insert_ge by lia.
    rewrite drop_insert_lt by lia.
    rewrite <- app_assoc. simpl.
    replace (S (out + length cs)) with (out + S (length cs))%nat by lia.
    reflexivity.
Qed.

Lemma store_from_start (cs buf : list ascii) :
  (length cs <= length buf)%nat ->
  store 0 cs buf = cs ++ drop (length cs) buf.
Proof.
  intros Hlen. rewrite store_take_drop by (simpl; lia). reflexivity.
Qed.

Lemma terminate_stored (cs buf : list ascii) :
  (length cs < length buf)%nat ->
  <[length cs := NUL]> (store 0 cs buf)
  = cs ++ NUL :: drop (S (length cs)) buf.
Proof.
  intros Hlen. rewrite store_from_start by lia.
  rewrite insert_app_r_alt by lia. rewrite Nat.sub_diag.
  f_equal.
  destruct (drop (length cs) buf) as [|x rest] eqn:Hdrop.
  - apply (f_equal length) in Hdrop. rewrite length_drop in Hdrop.
    simpl in Hdrop. lia.
  - simpl. f_equal.
    change rest with (drop 1 (x :: rest)). rewrite <- Hdrop, drop_drop.
    f_equal. lia.
Qed.

(** ** The line reader *)

Section LineReaderFacts.

Variable Uart : Type.
Variable uart_poll_in : Uart -> ascii -> Z * ascii * Uart.

Lemma recv_loop_step fuel uart buf out c ret c' uart' :
  uart_poll_in uart c = (ret, c', uart') ->
  recv_loop uart_poll_in (S fuel) uart buf out c =
    if negb (ret =? 0) then Some (LoopDone buf out c' uart')
    else if (MAX_CMD_LEN - 1 <=? out)%nat then
      Some (LoopReturn (- EOVERFLOW) buf uart')
    else if Ascii.eqb c' LF || Ascii.eqb c' NUL then
      Some (LoopDone buf out c' uart')
    else recv_loop uart_poll_in fuel uart' (<[out := c']> buf) (S out) c'.
Proof. intros Hpoll. cbn [recv_loop]. rewrite Hpoll. reflexivity. Qed.

(** The loop never runs out of iterations when it is given
    [MAX_CMD_LEN - out] of them, and one at least. *)
Lemma recv_loop_total (fuel : nat) :
  forall uart buf out c,
    (MAX_CMD_LEN <= S fuel + out)%nat ->
    exists e, recv_loop uart_poll_in (S fuel) uart buf out c = Some e.
Proof.
  induction fuel as [|fuel IH]; intros uart buf out c Hfuel;
    destruct (uart_poll_in uart c) as [[ret c'] uart'] eqn:Hpoll;
    rewrite (recv_loop_step _ _ _ _ _ _ _ _ Hpoll);
    destruct (negb (ret =? 0)); eauto;
    destruct (Nat.leb_spec (MAX_CMD_LEN - 1) out) as [Hge|Hlt]; eauto;
    destruct (Ascii.eqb c' LF || Ascii.eqb c' NUL); eauto.
  - unfold MAX_CMD_LEN in *. lia.
  - apply IH. lia.
Qed.

(** The only value the loop itself returns is [-EOVERFLOW]; when it is
    left otherwise, [out] is an offset at which the terminating NUL
    fits, and the array has kept its size. *)
Lemma recv_loop_exit (fuel : nat) :
  forall uart buf out c e,
    (out <= MAX_CMD_LEN - 1)%nat ->
    recv_loop uart_poll_in fuel uart buf out c = Some e ->
    match e with
    | LoopReturn ret buf' _ => ret = - EOVERFLOW /\ length buf' = length buf
    | LoopDone buf' out' _ _ =>
        (out' <= MAX_CMD_LEN - 1)%nat /\ length buf' = length buf
    end.
Proof.
  induction fuel as [|fuel IH]; intros uart buf out c e Hout Hrun;
    [discriminate|].
  destruct (uart_poll_in uart c) as [[ret c'] uart'] eqn:Hpoll.
  rewrite (recv_loop_step _ _ _ _ _ _ _ _ Hpoll) in Hrun.
  destruct (negb (ret =? 0)); [injection Hrun as <-; auto|].
  destruct (Nat.leb_spec (MAX_CMD_LEN - 1) out) as [Hge|Hlt];
    [injection Hrun as <-; auto|].
  destruct (Ascii.eqb c' LF || Ascii.eqb c' NUL);
    [injection Hrun as <-; auto|].
  apply IH in Hrun; [|lia].
  rewrite length_insert in Hrun. exact Hrun.
Qed.

(** Characters that arrive and are plain are stored one by one. *)
Lemma recv_loop_yields uart c cs c1 uart1 :
  yields uart_poll_in uart c cs c1 uart1 ->
  Forall plain cs ->
  forall buf out fuel,
    (out + length cs <= MAX_CMD_LEN - 1)%nat ->
    recv_loop uart_poll_in (length cs + fuel) uart buf out c
    = recv_loop uart_poll_in fuel uart1 (store out cs buf) (out + length cs) c1.
Proof.
  induction 1 as [uart c|uart c0 c uart1 cs c' uart' Hpoll _ IH];
    intros Hplain buf out fuel Hlen.
  - simpl. rewrite Nat.add_0_r. reflexivity.
  - inversion Hplain as [|? ? Hc Hcs]; subst.
    change (length (c :: cs) + fuel)%nat with (S (length cs + fuel)).
    rewrite (recv_loop_step _ _ _ _ _ _ _ _ Hpoll).
    change (negb (0 =? 0)) with false. cbv iota.
    cbn [length] in Hlen.
    destruct (Nat.leb_spec (MAX_CMD_LEN - 1) out) as [Hge|Hlt]; [lia|].
    rewrite (plain_eqb c Hc).
    rewrite IH by (assumption || lia).
    cbn [store length]. f_equal. lia.
Qed.

Lemma yields_app uart c cs1 cs2 c' uart' :
  yields uart_poll_in uart c (cs1 ++ cs2) c' uart' ->
  exists c1 uart1,
    yields uart_poll_in uart c cs1 c1 uart1 /\ yields uart_poll_in uart1 c1 cs2 c' uart'.
Proof.
  revert uart c. induction cs1 as [|x cs1 IH]; intros uart c Hy.
  - exists c, uart. split; [constructor | exact Hy].
  - inversion Hy as [|? ? ? u1 ? ? ? Hpoll Hrest]; subst.
    destruct (IH _ _ Hrest) as (c1 & uart1 & H1 & H2).
    exists c1, uart1. split; [econstructor; eassumption | exact H2].
Qed.

(** *** What [recv_line] returns *)

Lemma recv_line_total uart buf :
  exists ret buf' uart', recv_line uart_poll_in uart buf = Some (ret, buf', uart').
Proof.
  unfold recv_line.
  destruct (recv_loop_total (pred MAX_CMD_LEN) uart buf 0%nat NUL)
    as [e He]; [unfold MAX_CMD_LEN; lia|].
  change (S (pred MAX_CMD_LEN)) with MAX_CMD_LEN in He. rewrite He.
  destruct e as [ret buf' uart'|buf' out c uart']; [eauto|].
  destruct ((out =? 0)%nat && Ascii.eqb c NUL); eauto.
Qed.

Lemma recv_line_codes uart buf ret buf' uart' :
  recv_line uart_poll_in uart buf = Some (ret, buf', uart') ->
  ret = 0 \/ ret = - ENODATA \/ ret = - EOVERFLOW.
Proof.
  unfold recv_line. intros Hrun.
  destruct (recv_loop uart_poll_in MAX_CMD_LEN uart buf 0%nat NUL) as [e|] eqn:He;
    [|discriminate].
  apply recv_loop_exit in He; [|lia].
  destruct e as [r b u|b out c u].
  - injection Hrun as <- _ _. tauto.
  - destruct ((out =? 0)%nat && Ascii.eqb c NUL);
      injection Hrun as <- _ _; tauto.
Qed.

(** After the plain characters [cs], the loop is left by a poll that
    fails or that delivers a line feed or a NUL. *)
Lemma recv_line_ended uart cs c1 uart1 ret c2 uart2 buf :
  length buf = MAX_CMD_LEN ->
  yields uart_poll_in uart NUL cs c1 uart1 ->
  Forall plain cs ->
  uart_poll_in uart1 c1 = (ret, c2, uart2) ->
  (ret <> 0 /\ (length cs <= MAX_CMD_LEN - 1)%nat) \/
  (ret = 0 /\ (length cs < MAX_CMD_LEN - 1)%nat /\ (c2 = LF \/ c2 = NUL)) ->
  recv_line uart_poll_in uart buf =
    if (length cs =? 0)%nat && Ascii.eqb c2 NUL
    then Some (- ENODATA, store 0 cs buf, uart2)
    else Some (0, cs ++ NUL :: drop (S (length cs)) buf, uart2).
Proof.
  intros Hbuf Hy Hplain Hpoll Hend.
  assert (Hlen : (length cs <= MAX_CMD_LEN - 1)%nat) by (destruct Hend; lia).
  unfold recv_line.
  replace MAX_CMD_LEN with (length cs + S (MAX_CMD_LEN - 1 - length cs))%nat
    at 1 by (unfold MAX_CMD_LEN in *; lia).
  rewrite (recv_loop_yields _ _ _ _ _ Hy Hplain) by (cbn [Nat.add]; lia).
  rewrite (recv_loop_step _ _ _ _ _ _ _ _ Hpoll). cbn [Nat.add].
  assert (Hdone :
    (if negb (ret =? 0) then Some (LoopDone (store 0 cs buf) (length cs) c2 uart2)
     else if (MAX_CMD_LEN - 1 <=? length cs)%nat then
       Some (LoopReturn (- EOVERFLOW) (store 0 cs buf) uart2)
     else if Ascii.eqb c2 LF || Ascii.eqb c2 NUL then
       Some (LoopDone (store 0 cs buf) (length cs) c2 uart2)
     else recv_loop uart_poll_in (MAX_CMD_LEN - 1 - length cs) uart2
            (<[length cs := c2]> (store 0 cs buf)) (S (length cs)) c2)
    = Some (LoopDone (store 0 cs buf) (length cs) c2 uart2)).
  { destruct Hend as [[Hret _]|(-> & Hlt & Heol)].
    - apply Z.eqb_neq in Hret. rewrite Hret. reflexivity.
    - change (negb (0 =? 0)) with false. cbv iota.
      destruct (Nat.leb_spec (MAX_CMD_LEN - 1) (length cs)); [lia|].
      destruct Heol as [-> | ->]; reflexivity. }
  rewrite Hdone.
  destruct ((length cs =? 0)%nat && Ascii.eqb c2 NUL); [reflexivity|].
  rewrite terminate_stored by (unfold MAX_CMD_LEN in *; lia).
  reflexivity.
Qed.

(** Once [MAX_CMD_LEN - 1] characters are stored, any further character
    that arrives, whichever it is, makes the line too long. *)
Lemma recv_line_full uart cs c1 uart1 c2 uart2 buf :
  length buf = MAX_CMD_LEN ->
  yields uart_poll_in uart NUL cs c1 uart1 ->
  Forall plain cs ->
  length cs = (MAX_CMD_LEN - 1)%nat ->
  uart_poll_in uart1 c1 = (0, c2, uart2) ->
  recv_line uart_poll_in uart buf
  = Some (- EOVERFLOW, cs ++ drop (MAX_CMD_LEN - 1) buf, uart2).
Proof.
  intros Hbuf Hy Hplain Hlen Hpoll.
  unfold recv_line.
  replace MAX_CMD_LEN with (length cs + 1)%nat at 1
    by (unfold MAX_CMD_LEN in *; lia).
  rewrite (recv_loop_yields _ _ _ _ _ Hy Hplain) by (cbn [Nat.add]; lia).
  rewrite (recv_loop_step _ _ _ _ _ _ _ _ Hpoll). cbn [Nat.add].
  change (negb (0 =? 0)) with false. cbv iota.
  destruct (Nat.leb_spec (MAX_CMD_LEN - 1) (length cs)); [|lia].
  rewrite store_from_start by (unfold MAX_CMD_LEN in *; lia).
  rewrite Hlen. reflexivity.
Qed.

End LineReaderFacts.

(** ** Numerals and [%d] *)

Lemma to_int_in_range (z : Z) : in_int z -> to_int z = z.
Proof.
  unfold in_int, INT_MIN, INT_MAX, to_int. intros Hz.
  rewrite Z.mod_small by lia. lia.
Qed.

Lemma digit_char_spec (d : Z) :
  0 <= d < 10 ->
  isdigit (digit_char d) = true /\ digit_value (digit_char d) = d /\
  isspace (digit_char d) = false /\
  Ascii.eqb (digit_char d) "-" = false /\
  Ascii.eqb (digit_char d) "+" = false.
Proof.
  intros Hd.
  assert (Hcases : d = 0 \/ d = 1 \/ d = 2 \/ d = 3 \/ d = 4 \/
                   d = 5 \/ d = 6 \/ d = 7 \/ d = 8 \/ d = 9) by lia.
  repeat (destruct Hcases as [-> | Hcases]; [repeat split|]).
  subst d. repeat split.
Qed.

Lemma show_digits_scan (fuel : nat) :
  forall n acc rest,
    0 <= n < 2 ^ Z.of_nat fuel ->
    scan_digits (show_digits fuel n acc ++ rest) 0
    = scan_digits (acc ++ rest) n.
Proof.
  induction fuel as [|fuel IH]; intros n acc rest Hn.
  - simpl in *. replace n with 0 by lia. reflexivity.
  - rewrite Nat2Z.inj_succ, Z.pow_succ_r in Hn by lia.
    assert (Hmod : 0 <= n mod 10 < 10) by (apply Z.mod_pos_bound; lia).
    destruct (digit_char_spec _ Hmod) as (Hdig & Hval & _).
    pose proof (Z.div_mod n 10 ltac:(lia)) as Hdm.
    cbn [show_digits].
    destruct (Z.eqb_spec (n / 10) 0) as [Hq|Hq].
    + cbn [app scan_digits]. rewrite Hdig, Hval. f_equal. lia.
    + rewrite IH.
      * cbn [app scan_digits]. rewrite Hdig, Hval. f_equal. lia.
      * split; [apply Z.div_pos; lia|].
        apply Z.div_lt_upper_bound; lia.
Qed.

Lemma show_digits_head (fuel : nat) :
  forall n acc,
    0 <= n ->
    exists d tl, show_digits (S fuel) n acc = digit_char d :: tl /\ 0 <= d < 10.
Proof.
  induction fuel as [|fuel IH]; intros n acc Hn.
  - exists (n mod 10), acc. split; [|apply Z.mod_pos_bound; lia].
    cbn [show_digits]. destruct (n / 10 =? 0); reflexivity.
  - change (show_digits (S (S fuel)) n acc)
      with (if n / 10 =? 0 then digit_char (n mod 10) :: acc
            else show_digits (S fuel) (n / 10) (digit_char (n mod 10) :: acc)).
    destruct (n / 10 =? 0).
    + exists (n mod 10), acc. split; [reflexivity|apply Z.mod_pos_bound; lia].
    + apply IH. apply Z.div_pos; lia.
Qed.

Lemma scan_digits_stop (rest : cstring) (acc : Z) :
  no_digit_ahead rest -> scan_digits rest acc = (acc, rest).
Proof.
  destruct rest as [|c rest]; simpl; [reflexivity|]. intros ->. reflexivity.
Qed.

Lemma show_nat_head (n : Z) :
  0 <= n -> exists d tl, show_nat n = digit_char d :: tl /\ 0 <= d < 10.
Proof. apply show_digits_head. Qed.

Lemma show_nat_scan (n : Z) (rest : cstring) :
  0 <= n -> no_digit_ahead rest ->
  scan_digits (show_nat n ++ rest) 0 = (n, rest).
Proof.
  intros Hn Hrest. unfold show_nat. rewrite show_digits_scan.
  - apply scan_digits_stop. exact Hrest.
  - split; [exact Hn|].
    rewrite Nat2Z.inj_succ, Z2Nat.id by apply Z.log2_nonneg.
    destruct (Z.eq_dec n 0) as [->|Hpos]; [reflexivity|].
    apply Z.log2_spec. lia.
Qed.

(** A numeral does not begin with white space. *)
Lemma skip_space_show_int (z : Z) (rest : cstring) :
  skip_space (show_int z ++ rest) = show_int z ++ rest.
Proof.
  unfold show_int. destruct (Z.ltb_spec z 0) as [Hneg|Hpos].
  - reflexivity.
  - destruct (show_nat_head z Hpos) as (d & tl & -> & Hd).
    destruct (digit_char_spec d Hd) as (_ & _ & Hsp & _).
    cbn [app skip_space]. rewrite Hsp. reflexivity.
Qed.

(** [%d] reads back the integer a numeral was written from. *)
Lemma conv_d_show_int (z : Z) (rest : cstring) :
  in_int z -> no_digit_ahead rest ->
  conv_d (show_int z ++ rest) = Converted z rest.
Proof.
  intros Hz Hrest. unfold conv_d. rewrite skip_space_show_int.
  unfold show_int. destruct (Z.ltb_spec z 0) as [Hneg|Hpos].
  - cbn [app]. change (Ascii.eqb "-" "-") with true. cbv iota.
    destruct (show_nat_head (- z) ltac:(lia)) as (d & tl & Hshow & Hd).
    destruct (digit_char_spec d Hd) as (Hdig & _).
    rewrite show_nat_scan by (lia || assumption).
    rewrite Hshow. cbn [app]. rewrite Hdig.
    rewrite Z.opp_involutive, to_int_in_range by assumption. reflexivity.
  - destruct (show_nat_head z Hpos) as (d & tl & Hshow & Hd).
    destruct (digit_char_spec d Hd) as (Hdig & _ & _ & Hminus & Hplus).
    pose proof (show_nat_scan z rest Hpos Hrest) as Hscan.
    rewrite Hshow in *. cbn [app] in *. rewrite Hminus, Hplus, Hdig, Hscan.
    rewrite to_int_in_range by assumption. reflexivity.
Qed.

(** ** The command parser *)

Lemma arg_text_cons (a : Z) (args : list Z) :
  arg_text (a :: args) = " "%char :: show_int a ++ arg_text args.
Proof. reflexivity. Qed.

Lemma no_digit_ahead_arg_text (args : list Z) : no_digit_ahead (arg_text args).
Proof. destruct args; [exact I | reflexivity]. Qed.

(** One [ %d] of a format consumes a blank and the numeral after it. *)
Lemma scan_numeral fmt (a : Z) (rest : cstring) (vals : list Z) :
  in_int a -> no_digit_ahead rest ->
  scan (WhiteSpace :: ConvD :: fmt) (" "%char :: show_int a ++ rest) vals
  = scan fmt rest (vals ++ [a]).
Proof.
  intros Ha Hrest. cbn [scan].
  change (skip_space (" "%char :: show_int a ++ rest))
    with (skip_space (show_int a ++ rest)).
  rewrite skip_space_show_int, conv_d_show_int by assumption.
  reflexivity.
Qed.

Lemma scan_argument fmt (a : Z) (args : list Z) (vals : list Z) :
  in_int a ->
  scan (WhiteSpace :: ConvD :: fmt) (arg_text (a :: args)) vals
  = scan fmt (arg_text args) (vals ++ [a]).
Proof.
  intros Ha. rewrite arg_text_cons.
  apply scan_numeral; [assumption | apply no_digit_ahead_arg_text].
Qed.

Lemma scan_no_argument fmt (vals : list Z) :
  scan (WhiteSpace :: ConvD :: fmt) (arg_text []) vals = stopped true vals.
Proof. reflexivity. Qed.

Lemma scan_ordinary fmt (c : ascii) (s : cstring) (vals : list Z) :
  scan (Ordinary c :: fmt) (c :: s) vals = scan fmt s vals.
Proof. cbn [scan]. rewrite Ascii.eqb_refl. reflexivity. Qed.

Lemma kscan_parse_command_key (tag : ascii) (args : list Z) (args0 : Z * Z) :
  tag = "p"%char \/ tag = "r"%char ->
  Forall in_int args ->
  kscan_parse_command (command_line tag args) args0 =
    match args with
    | [] => (- EINVAL, args0)
    | [row] => (char_code tag, (row, 0))
    | row :: col :: _ => (char_code tag, (row, col))
    end.
Proof.
  intros Htag Hargs.
  assert (Hscan : forall vals,
    scan [WhiteSpace; ConvD; WhiteSpace; ConvD] (arg_text args) vals =
      match args with
      | [] => stopped true vals
      | [row] => stopped true (vals ++ [row])
      | row :: col :: _ => stopped false ((vals ++ [row]) ++ [col])
      end).
  { intros vals. destruct Hargs as [|row args Hrow Hargs];
      [apply scan_no_argument|].
    rewrite scan_argument by assumption.
    destruct Hargs as [|col args Hcol Hargs]; [apply scan_no_argument|].
    rewrite scan_argument by assumption. reflexivity. }
  unfold kscan_parse_command, command_line, sscanf.
  destruct Htag as [-> | ->]; cbn [first_char hd];
    [change (directives (lit "p %d %d"))
       with [Ordinary "p"; WhiteSpace; ConvD; WhiteSpace; ConvD]
    |change (directives (lit "r %d %d"))
       with [Ordinary "r"; WhiteSpace; ConvD; WhiteSpace; ConvD]];
    cbn [Ascii.eqb Bool.eqb orb]; rewrite scan_ordinary, Hscan;
    destruct args as [|row [|col args]]; reflexivity.
Qed.

Lemma kscan_parse_command_wait (ms : Z) (rest : cstring) (args0 : Z * Z) :
  in_int ms -> no_digit_ahead rest ->
  kscan_parse_command (lit "w " ++ show_int ms ++ rest) args0
  = (char_code "w", (ms, snd args0)).
Proof.
  intros Hms Hrest.
  unfold kscan_parse_command, sscanf. cbn [lit list_ascii_of_string app].
  cbn [first_char hd].
  change (directives ("w"%char :: " "%char :: "%"%char :: "d"%char :: []))
    with [Ordinary "w"; WhiteSpace; ConvD].
  cbn [Ascii.eqb Bool.eqb orb].
  rewrite scan_ordinary, scan_numeral by assumption. reflexivity.
Qed.

Lemma skip_space_blanks (n : nat) : skip_space (repeat " "%char n) = [].
Proof. induction n as [|n IH]; [reflexivity | exact IH]. Qed.

Lemma kscan_parse_command_wait_nothing (n : nat) (args0 : Z * Z) :
  kscan_parse_command (lit "w" ++ repeat " "%char n) args0
  = (- EINVAL, args0).
Proof.
  unfold kscan_parse_command, sscanf. cbn [lit list_ascii_of_string app].
  cbn [first_char hd].
  change (directives ("w"%char :: " "%char :: "%"%char :: "d"%char :: []))
    with [Ordinary "w"; WhiteSpace; ConvD].
  cbn [Ascii.eqb Bool.eqb orb].
  rewrite scan_ordinary. cbn [scan]. unfold conv_d.
  rewrite skip_space_blanks.
  change (skip_space []) with (@nil ascii). reflexivity.
Qed.

(** The parser returns a tag or [-EINVAL], nothing else. *)
Lemma kscan_parse_command_codes (cmd : cstring) (args0 : Z * Z) :
  let ret := fst (kscan_parse_command cmd args0) in
  ret = char_code "p" \/ ret = char_code "r" \/ ret = char_code "w" \/
  ret = - EINVAL.
Proof.
  unfold kscan_parse_command.
  destruct (Ascii.eqb_spec (first_char cmd) "p") as [-> | _];
    [|destruct (Ascii.eqb_spec (first_char cmd) "r") as [-> | _];
      [|destruct (Ascii.eqb_spec (first_char cmd) "w") as [-> | _]]].
  - destruct (sscanf cmd "p %d %d") as [n vals]. cbn [orb].
    destruct (n =? 1); [|destruct (negb (n =? 2))]; simpl; tauto.
  - destruct (sscanf cmd "r %d %d") as [n vals]. cbn [orb].
    destruct (n =? 1); [|destruct (negb (n =? 2))]; simpl; tauto.
  - destruct (sscanf cmd "w %d") as [n vals].
    change (Ascii.eqb "w" "p" || Ascii.eqb "w" "r") with false. cbv iota.
    destruct (negb (n =? 1)); simpl; tauto.
  - simpl. tauto.
Qed.

(** ** The claims of the specification *)

Section Claims.

Variable Uart : Type.
Variable uart_poll_in : Uart -> ascii -> Z * ascii * Uart.
Variable callback_fn : Type.

(** C1, as amended.  The characters [cs] of a line have arrived, fewer
    than [MAX_CMD_LEN - 1] of them, and the next poll delivers a line
    feed or a NUL.  With nothing accumulated and a NUL, [recv_line]
    returns [-ENODATA] (Empty) and leaves the buffer alone; this is in
    particular what a first read of NUL gives.  In every other case,
    a line feed on an empty line included, it returns 0 (Ok) and the
    buffer holds [cs] as a C string. *)
Theorem recv_line_end_of_line uart cs c1 uart1 t uart2 buf :
  length buf = MAX_CMD_LEN ->
  yields uart_poll_in uart NUL cs c1 uart1 ->
  Forall plain cs ->
  (length cs < MAX_CMD_LEN - 1)%nat ->
  uart_poll_in uart1 c1 = (0, t, uart2) ->
  t = LF \/ t = NUL ->
  (cs = [] /\ t = NUL ->
     recv_line uart_poll_in uart buf = Some (- ENODATA, buf, uart2)) /\
  (cs <> [] \/ t = LF ->
     recv_line uart_poll_in uart buf
     = Some (0, cs ++ NUL :: drop (S (length cs)) buf, uart2) /\
     cstr (cs ++ NUL :: drop (S (length cs)) buf) = cs).
Proof.
  intros Hbuf Hy Hplain Hlen Hpoll Ht.
  pose proof (recv_line_ended Uart uart_poll_in uart cs c1 uart1 0 t uart2
                buf Hbuf Hy Hplain Hpoll) as Hrun.
  rewrite Hrun by (right; auto). clear Hrun. split.
  - intros [-> ->]. reflexivity.
  - intros Hcase. rewrite cstr_terminated by assumption.
    split; [|reflexivity].
    destruct Hcase as [Hcs | ->].
    + destruct cs; [congruence | reflexivity].
    + rewrite andb_false_r. reflexivity.
Qed.

(** C7.  A source that yields [MAX_CMD_LEN] or more characters, none of
    them a line feed or a NUL: [recv_line] returns [-EOVERFLOW] with the
    first 127 of them in the buffer, and the work handler logs exactly
    those 127 characters as an error and exits with status 1; it calls
    no callback and schedules nothing. *)
Theorem overflow_is_fatal config (data : kscan_ptty_data callback_fn) uart cs c1 uart1 cmd :
  length cmd = MAX_CMD_LEN ->
  yields uart_poll_in uart NUL cs c1 uart1 ->
  Forall plain cs ->
  (MAX_CMD_LEN <= length cs)%nat ->
  exists uart',
    recv_line uart_poll_in uart cmd
    = Some (- EOVERFLOW,
            take (MAX_CMD_LEN - 1) cs ++ drop (MAX_CMD_LEN - 1) cmd, uart') /\
    kscan_ptty_work_handler uart_poll_in config data uart cmd
    = Some {| effects :=
                [LOG_ERR (command_too_long (take (MAX_CMD_LEN - 1) cs))];
              outcome := Exits 1;
              data_after := data; uart_after := uart' |} /\
    length (take (MAX_CMD_LEN - 1) cs) = (MAX_CMD_LEN - 1)%nat.
Proof.
  intros Hcmd Hy Hplain Hlen.
  set (n := (MAX_CMD_LEN - 1)%nat).
  assert (Hn : n = 127%nat) by reflexivity.
  assert (Htake : length (take n cs) = n)
    by (rewrite length_take; unfold MAX_CMD_LEN in *; lia).
  rewrite <- (take_drop n cs) in Hy.
  destruct (yields_app _ _ _ _ _ _ _ _ Hy) as (ca & ua & Hya & Hyb).
  destruct (drop n cs) as [|x rest] eqn:Hdrop.
  { apply (f_equal length) in Hdrop. rewrite length_drop in Hdrop.
    simpl in Hdrop. unfold MAX_CMD_LEN in *. lia. }
  inversion Hyb as [|? ? ? ub ? ? ? Hpoll _]; subst.
  assert (Hp : Forall plain (take n cs)) by (apply Forall_take; assumption).
  pose proof (recv_line_full Uart uart_poll_in uart (take n cs) ca ua x ub
                cmd Hcmd Hya Hp Htake Hpoll) as Hrun.
  exists ub. split; [exact Hrun|]. split; [|exact Htake].
  unfold kscan_ptty_work_handler. rewrite Hrun. unfold on_recv_line.
  change (- EOVERFLOW =? - ENODATA) with false.
  change (- EOVERFLOW =? - EOVERFLOW) with true. cbv iota.
  fold n.
  rewrite insert_app_r_alt by lia.
  rewrite Htake, Nat.sub_diag.
  destruct (drop n cmd) as [|y tl] eqn:Hd.
  { apply (f_equal length) in Hd. rewrite length_drop in Hd.
    simpl in Hd. unfold MAX_CMD_LEN in *. lia. }
  cbn [insert list_insert].
  rewrite cstr_terminated by assumption. reflexivity.
Qed.

(** C9, as amended.  A poll that fails is not reported by [recv_line]:
    it ends the line.  With nothing accumulated and NUL in the character
    variable the line reads as Empty, and the work handler logs the end
    of the commands and exits with status 0 or returns, by [exit_after];
    otherwise [recv_line] returns 0 with the characters accumulated so
    far, and the handler goes on to parse them. *)
Theorem poll_fault_ends_line config (data : kscan_ptty_data callback_fn)
    uart cs c1 uart1 ret c2 uart2 cmd :
  length cmd = MAX_CMD_LEN ->
  yields uart_poll_in uart NUL cs c1 uart1 ->
  Forall plain cs ->
  (length cs <= MAX_CMD_LEN - 1)%nat ->
  uart_poll_in uart1 c1 = (ret, c2, uart2) ->
  ret <> 0 ->
  (cs = [] /\ c2 = NUL ->
     recv_line uart_poll_in uart cmd = Some (- ENODATA, cmd, uart2) /\
     kscan_ptty_work_handler uart_poll_in config data uart cmd
     = Some {| effects := [LOG_INF all_commands_processed];
               outcome := if exit_after config then Exits 0 else Returns;
               data_after := data; uart_after := uart2 |}) /\
  (cs <> [] \/ c2 <> NUL ->
     recv_line uart_poll_in uart cmd
     = Some (0, cs ++ NUL :: drop (S (length cs)) cmd, uart2) /\
     kscan_ptty_work_handler uart_poll_in config data uart cmd
     = Some (run_command config data uart2
               (cs ++ NUL :: drop (S (length cs)) cmd))).
Proof.
  intros Hcmd Hy Hplain Hlen Hpoll Hret.
  pose proof (recv_line_ended Uart uart_poll_in uart cs c1 uart1 ret c2
                uart2 cmd Hcmd Hy Hplain Hpoll) as Hrun.
  unfold kscan_ptty_work_handler.
  rewrite Hrun by (left; auto). clear Hrun. split.
  - intros [-> ->]. split; reflexivity.
  - intros Hcase.
    assert (Hno : (length cs =? 0)%nat && Ascii.eqb c2 NUL = false).
    { destruct Hcase as [Hcs | Hc2].
      - destruct cs; [congruence | reflexivity].
      - apply Ascii.eqb_neq in Hc2. rewrite Hc2. apply andb_false_r. }
    rewrite Hno. split; reflexivity.
Qed.

(** C5.  When [recv_line] returns [-ENODATA] (Empty), the work handler
    logs an informational message and nothing else: it exits with status
    0 if [exit_after] is set, and otherwise returns; it schedules
    nothing, calls no callback and logs no error. *)
Theorem tick_on_empty config (data : kscan_ptty_data callback_fn) uart cmd cmd' uart' :
  recv_line uart_poll_in uart cmd = Some (- ENODATA, cmd', uart') ->
  kscan_ptty_work_handler uart_poll_in config data uart cmd
  = Some {| effects := [LOG_INF all_commands_processed];
            outcome := if exit_after config then Exits 0 else Returns;
            data_after := data; uart_after := uart' |}.
Proof.
  intros Hrun. unfold kscan_ptty_work_handler. rewrite Hrun. reflexivity.
Qed.

(** C6.  When [recv_line] returns 0 (Ok) and the parser returns
    [-EINVAL] for the line, the work handler logs the line as an error
    and returns: it schedules nothing, calls no callback and does not
    exit. *)
Theorem tick_on_invalid_command config (data : kscan_ptty_data callback_fn)
    uart cmd cmd' uart' :
  recv_line uart_poll_in uart cmd = Some (0, cmd', uart') ->
  fst (kscan_parse_command (cstr cmd') (-1, -1)) = - EINVAL ->
  kscan_ptty_work_handler uart_poll_in config data uart cmd
  = Some {| effects := [LOG_ERR (invalid_command (cstr cmd'))];
            outcome := Returns;
            data_after := data; uart_after := uart' |}.
Proof.
  intros Hrun Hparse. unfold kscan_ptty_work_handler. rewrite Hrun.
  unfold on_recv_line, run_command.
  change (0 =? - ENODATA) with false. change (0 =? - EOVERFLOW) with false.
  change (0 =? 0) with true. cbv iota.
  destruct (kscan_parse_command (cstr cmd') (-1, -1)) as [ret [arg0 arg1]].
  cbn [fst] in Hparse. subst ret. reflexivity.
Qed.

(** C2.  When [recv_line] returns 0 (Ok) and the line parses: for
    [Wait ms] the work handler schedules the work item after [ms]
    milliseconds and calls no callback; for [Press row col] and
    [Release row col] it calls the registered callback once, with
    [row], [col] and [true] for a press, [false] for a release, and then
    schedules the work item after [delay_ms]. *)
Theorem tick_on_command config (data : kscan_ptty_data callback_fn) uart cmd cmd' uart' :
  recv_line uart_poll_in uart cmd = Some (0, cmd', uart') ->
  (forall ms,
     parsed_event (cstr cmd') = Some (Wait ms) ->
     kscan_ptty_work_handler uart_poll_in config data uart cmd
     = Some {| effects := [LOG_DBG (cmd_wait (cmd_idx data) ms);
                           k_work_schedule ms];
               outcome := Returns;
               data_after := next_cmd data;
               uart_after := uart' |}) /\
  (forall f row col,
     callback data = Some f ->
     parsed_event (cstr cmd') = Some (Press row col) ->
     kscan_ptty_work_handler uart_poll_in config data uart cmd
     = Some {| effects := [LOG_DBG (cmd_key (cmd_idx data) true row col);
                           call f row col true;
                           k_work_schedule (delay_ms config)];
               outcome := Returns;
               data_after := next_cmd data;
               uart_after := uart' |}) /\
  (forall f row col,
     callback data = Some f ->
     parsed_event (cstr cmd') = Some (Release row col) ->
     kscan_ptty_work_handler uart_poll_in config data uart cmd
     = Some {| effects := [LOG_DBG (cmd_key (cmd_idx data) false row col);
                           call f row col false;
                           k_work_schedule (delay_ms config)];
               outcome := Returns;
               data_after := next_cmd data;
               uart_after := uart' |}).
Proof.
  intros Hrun. unfold kscan_ptty_work_handler. rewrite Hrun.
  unfold on_recv_line, run_command, parsed_event.
  change (0 =? - ENODATA) with false. change (0 =? - EOVERFLOW) with false.
  change (0 =? 0) with true. cbv iota.
  destruct (kscan_parse_command (cstr cmd') (-1, -1)) as [ret [arg0 arg1]].
  repeat split.
  - intros ms Hev.
    destruct (ret =? char_code "p"); [discriminate|].
    destruct (ret =? char_code "r"); [discriminate|].
    destruct (ret =? char_code "w"); [|discriminate].
    injection Hev as ->. reflexivity.
  - intros f row col Hcb Hev. rewrite Hcb.
    destruct (ret =? char_code "p").
    + injection Hev as -> ->. reflexivity.
    + destruct (ret =? char_code "r"); [discriminate|].
      destruct (ret =? char_code "w"); discriminate.
  - intros f row col Hcb Hev. rewrite Hcb.
    destruct (ret =? char_code "p"); [discriminate|].
    destruct (ret =? char_code "r").
    + injection Hev as -> ->. reflexivity.
    + destruct (ret =? char_code "w"); discriminate.
Qed.

(** C10.  [kscan_ptty_configure] with the null callback returns
    [-EINVAL], leaves the driver data as it is and schedules nothing;
    with a callback it stores the callback, schedules the work item
    after [delay_ms] and returns 0. *)
Theorem configure_registers_callback config (data : kscan_ptty_data callback_fn) :
  kscan_ptty_configure config data None
  = (- EINVAL, data, []) /\
  (forall f,
     kscan_ptty_configure config data (Some f)
     = (0, {| callback := Some f; cmd_idx := cmd_idx data |},
        [k_work_schedule (delay_ms config)])).
Proof. split; reflexivity. Qed.

End Claims.

(** C3.  For integers [R] and [C] of type [int], the line [p R C] parses
    to [Press R C] and [r R C] to [Release R C]; with the second argument
    left out, [p R] parses to [Press R 0] and [r R] to [Release R 0]. *)
Theorem parse_press_release (R C : Z) :
  in_int R -> in_int C ->
  parsed_event (lit "p " ++ show_int R ++ lit " " ++ show_int C)
  = Some (Press R C) /\
  parsed_event (lit "r " ++ show_int R ++ lit " " ++ show_int C)
  = Some (Release R C) /\
  parsed_event (lit "p " ++ show_int R) = Some (Press R 0) /\
  parsed_event (lit "r " ++ show_int R) = Some (Release R 0).
Proof.
  intros HR HC.
  assert (Htwo : forall tag,
    lit tag ++ show_int R ++ lit " " ++ show_int C
    = lit tag ++ show_int R ++ " "%char :: show_int C ++ []).
  { intros tag. rewrite app_nil_r. reflexivity. }
  assert (Hone : forall tag,
    lit tag ++ show_int R = lit tag ++ show_int R ++ []).
  { intros tag. rewrite app_nil_r. reflexivity. }
  rewrite !Htwo, !Hone.
  change (lit "p " ++ show_int R ++ " "%char :: show_int C ++ [])
    with (command_line "p" [R; C]).
  change (lit "r " ++ show_int R ++ " "%char :: show_int C ++ [])
    with (command_line "r" [R; C]).
  change (lit "p " ++ show_int R ++ []) with (command_line "p" [R]).
  change (lit "r " ++ show_int R ++ []) with (command_line "r" [R]).
  unfold parsed_event.
  rewrite !kscan_parse_command_key by (auto; repeat constructor; assumption).
  repeat split.
Qed.

(** ** Runs on scripted input *)

(** C1 does not hold as stated: a line feed that arrives first, with
    nothing accumulated, reads as Ok with the empty line, not as Empty. *)
Lemma blank_line_reads_ok :
  recv_line script_poll_in [Arrives LF] fresh_cmd
  = Some (0, NUL :: drop 1 fresh_cmd, []) /\
  cstr (NUL :: drop 1 fresh_cmd) = [] /\
  0 <> - ENODATA.
Proof. repeat split. discriminate. Qed.


(** C9 does not hold as stated: the poll fails with -16 ([-EBUSY]);
    [recv_line] returns [-ENODATA] instead, and the work handler, with
    [exit_after] off, logs no error and returns instead of exiting. *)
Lemma poll_fault_not_propagated :
  recv_line script_poll_in [Fails (-16)] fresh_cmd
  = Some (- ENODATA, fresh_cmd, []) /\
  - ENODATA <> -16 /\
  kscan_ptty_work_handler script_poll_in
    {| delay_ms := 10; exit_after := false |}
    {| callback := Some 7%nat; cmd_idx := 0 |} [Fails (-16)] fresh_cmd
  = Some {| effects := [LOG_INF all_commands_processed];
            outcome := Returns;
            data_after := {| callback := Some 7%nat; cmd_idx := 0 |};
            uart_after := [] |} /\
  Returns <> Exits 1.
Proof. repeat split; discriminate. Qed.

(** C8: the code at a line of 127 characters and its line feed.  The line
    feed is refused as one character too many, [recv_line] returns
    [-EOVERFLOW] and the work handler exits with status 1.  One character
    less reads as Ok, and so do the same 127 characters when the line is
    ended by a failing poll: the array has room for them and their NUL. *)
Theorem full_line_with_line_feed_overflows :
  let line := repeat "a"%char 127 in
  recv_line script_poll_in (map Arrives line ++ [Arrives LF])
    fresh_cmd
  = Some (- EOVERFLOW, line ++ ["?"%char], []) /\
  kscan_ptty_work_handler script_poll_in
    {| delay_ms := 10; exit_after := false |}
    {| callback := Some 7%nat; cmd_idx := 0 |}
    (map Arrives line ++ [Arrives LF]) fresh_cmd
  = Some {| effects := [LOG_ERR (command_too_long line)];
            outcome := Exits 1;
            data_after := {| callback := Some 7%nat; cmd_idx := 0 |};
            uart_after := [] |} /\
  recv_line script_poll_in
    (map Arrives (repeat "a"%char 126) ++ [Arrives LF]) fresh_cmd
  = Some (0, repeat "a"%char 126 ++ [NUL; "?"%char], []) /\
  recv_line script_poll_in (map Arrives line ++ [Fails (-1)])
    fresh_cmd
  = Some (0, line ++ [NUL], []).
Proof. repeat split; vm_compute; reflexivity. Qed.

(** *** The theorems at concrete inputs *)

Lemma recv_line_end_of_line_witness :
  recv_line script_poll_in
    (chars "p 1 2" ++ Arrives LF :: chars "w 50") fresh_cmd
  = Some (0, lit "p 1 2" ++ NUL :: drop 6 fresh_cmd, chars "w 50").
Proof.
  refine (proj1 (proj2 (recv_line_end_of_line (list poll) script_poll_in
            (chars "p 1 2" ++ Arrives LF :: chars "w 50") (lit "p 1 2")
            "2"%char (Arrives LF :: chars "w 50") LF (chars "w 50") fresh_cmd
            _ _ _ _ _ _) _)).
  - reflexivity.
  - repeat econstructor.
  - repeat constructor; discriminate.
  - vm_compute. lia.
  - reflexivity.
  - left. reflexivity.
  - left. discriminate.
Defined.

Lemma overflow_is_fatal_witness :
  exists uart',
    recv_line script_poll_in
      (map Arrives (repeat "a"%char 200)) fresh_cmd
    = Some (- EOVERFLOW,
            take (MAX_CMD_LEN - 1) (repeat "a"%char 200)
              ++ drop (MAX_CMD_LEN - 1) fresh_cmd, uart') /\
    kscan_ptty_work_handler script_poll_in
      {| delay_ms := 10; exit_after := true |}
      {| callback := Some 7%nat; cmd_idx := 0 |}
      (map Arrives (repeat "a"%char 200)) fresh_cmd
    = Some {| effects :=
                [LOG_ERR (command_too_long
                            (take (MAX_CMD_LEN - 1) (repeat "a"%char 200)))];
              outcome := Exits 1;
              data_after := {| callback := Some 7%nat; cmd_idx := 0 |};
              uart_after := uart' |} /\
    length (take (MAX_CMD_LEN - 1) (repeat "a"%char 200))
    = (MAX_CMD_LEN - 1)%nat.
Proof.
  refine (overflow_is_fatal (list poll) script_poll_in nat
            {| delay_ms := 10; exit_after := true |}
            {| callback := Some 7%nat; cmd_idx := 0 |}
            (map Arrives (repeat "a"%char 200)) (repeat "a"%char 200)
            "a"%char [] fresh_cmd _ _ _ _).
  - reflexivity.
  - repeat econstructor.
  - repeat constructor; discriminate.
  - vm_compute. lia.
Defined.

Lemma poll_fault_ends_line_witness :
  recv_line script_poll_in (chars "p 3" ++ [Fails (-16)])
    fresh_cmd
  = Some (0, lit "p 3" ++ NUL :: drop 4 fresh_cmd, []) /\
  kscan_ptty_work_handler script_poll_in
    {| delay_ms := 10; exit_after := true |}
    {| callback := Some 7%nat; cmd_idx := 0 |}
    (chars "p 3" ++ [Fails (-16)]) fresh_cmd
  = Some (run_command
            {| delay_ms := 10; exit_after := true |}
            {| callback := Some 7%nat; cmd_idx := 0 |} []
            (lit "p 3" ++ NUL :: drop 4 fresh_cmd)).
Proof.
  refine (proj2 (poll_fault_ends_line (list poll) script_poll_in nat
            {| delay_ms := 10; exit_after := true |}
            {| callback := Some 7%nat; cmd_idx := 0 |}
            (chars "p 3" ++ [Fails (-16)]) (lit "p 3") "3"%char
            [Fails (-16)] (-16) "3"%char [] fresh_cmd _ _ _ _ _ _) _).
  - reflexivity.
  - repeat econstructor.
  - repeat constructor; discriminate.
  - vm_compute. lia.
  - reflexivity.
  - discriminate.
  - left. discriminate.
Defined.

Lemma tick_on_empty_witness :
  kscan_ptty_work_handler script_poll_in
    {| delay_ms := 10; exit_after := true |}
    {| callback := Some 7%nat; cmd_idx := 3 |} [] fresh_cmd
  = Some {| effects := [LOG_INF all_commands_processed];
            outcome := Exits 0;
            data_after := {| callback := Some 7%nat; cmd_idx := 3 |};
            uart_after := [] |}.
Proof.
  refine (tick_on_empty (list poll) script_poll_in nat
            {| delay_ms := 10; exit_after := true |}
            {| callback := Some 7%nat; cmd_idx := 3 |} [] fresh_cmd
            fresh_cmd [] _).
  reflexivity.
Defined.

Lemma tick_on_invalid_command_witness :
  kscan_ptty_work_handler script_poll_in
    {| delay_ms := 10; exit_after := true |}
    {| callback := Some 7%nat; cmd_idx := 3 |}
    (chars "x 1 2" ++ Arrives LF :: chars "p 1 2") fresh_cmd
  = Some {| effects := [LOG_ERR (invalid_command (lit "x 1 2"))];
            outcome := Returns;
            data_after := {| callback := Some 7%nat; cmd_idx := 3 |};
            uart_after := chars "p 1 2" |}.
Proof.
  refine (tick_on_invalid_command (list poll) script_poll_in nat
            {| delay_ms := 10; exit_after := true |}
            {| callback := Some 7%nat; cmd_idx := 3 |}
            (chars "x 1 2" ++ Arrives LF :: chars "p 1 2") fresh_cmd
            (lit "x 1 2" ++ NUL :: drop 6 fresh_cmd) (chars "p 1 2") _ _).
  - reflexivity.
  - reflexivity.
Defined.

Lemma tick_on_command_witness :
  kscan_ptty_work_handler script_poll_in
    {| delay_ms := 10; exit_after := true |}
    {| callback := Some 7%nat; cmd_idx := 0 |}
    (chars "p 1 2" ++ Arrives LF :: chars "w 50") fresh_cmd
  = Some {| effects := [LOG_DBG (cmd_key 0 true 1 2); call 7%nat 1 2 true;
                        k_work_schedule 10];
            outcome := Returns;
            data_after := {| callback := Some 7%nat; cmd_idx := 1 |};
            uart_after := chars "w 50" |}.
Proof.
  refine (proj1 (proj2 (tick_on_command (list poll) script_poll_in nat
            {| delay_ms := 10; exit_after := true |}
            {| callback := Some 7%nat; cmd_idx := 0 |}
            (chars "p 1 2" ++ Arrives LF :: chars "w 50") fresh_cmd
            (lit "p 1 2" ++ NUL :: drop 6 fresh_cmd) (chars "w 50") _))
            7%nat 1 2 _ _).
  - reflexivity.
  - reflexivity.
  - reflexivity.
Defined.

Lemma parse_press_release_witness :
  parsed_event (lit "p 3 -4") = Some (Press 3 (-4)) /\
  parsed_event (lit "r 3 -4") = Some (Release 3 (-4)) /\
  parsed_event (lit "p 3") = Some (Press 3 0) /\
  parsed_event (lit "r 3") = Some (Release 3 0).
Proof.
  refine (parse_press_release 3 (-4) _ _);
    unfold in_int, INT_MIN, INT_MAX; lia.
Defined.

(** * Further properties of the driver *)

(** ** The line reader on every source *)

Lemma store_snoc (cs : list ascii) (c : ascii) (buf : list ascii) (out : nat) :
  store out (cs ++ [c]) buf = <[(out + length cs)%nat := c]> (store out cs buf).
Proof.
  revert out buf. induction cs as [|x cs IH]; intros out buf; cbn [app store length].
  - rewrite Nat.add_0_r. reflexivity.
  - rewrite IH. f_equal. lia.
Qed.

Lemma eqb_plain (c : ascii) :
  Ascii.eqb c LF || Ascii.eqb c NUL = false -> plain c.
Proof.
  intros H. apply orb_false_elim in H as [Hlf Hnul].
  split; apply Ascii.eqb_neq; assumption.
Qed.

Section LineReaderShape.

Variable Uart : Type.
Variable uart_poll_in : Uart -> ascii -> Z * ascii * Uart.

(** How the loop is left depends on the device alone; the array only
    receives the characters. *)
Lemma recv_loop_lines (fuel : nat) :
  forall uart line c,
    Forall plain line ->
    (length line <= MAX_CMD_LEN - 1)%nat ->
    (exists line' c' uart',
       Forall plain line' /\ (length line' <= MAX_CMD_LEN - 1)%nat /\
       forall buf,
         recv_loop uart_poll_in fuel uart (store 0 line buf) (length line) c
         = Some (LoopDone (store 0 line' buf) (length line') c' uart')) \/
    (exists line' uart',
       Forall plain line' /\ length line' = (MAX_CMD_LEN - 1)%nat /\
       forall buf,
         recv_loop uart_poll_in fuel uart (store 0 line buf) (length line) c
         = Some (LoopReturn (- EOVERFLOW) (store 0 line' buf) uart')) \/
    (forall buf,
       recv_loop uart_poll_in fuel uart (store 0 line buf) (length line) c
       = None).
Proof.
  induction fuel as [|fuel IH]; intros uart line c Hplain Hlen.
  - right. right. reflexivity.
  - destruct (uart_poll_in uart c) as [[ret c'] uart'] eqn:Hpoll.
    destruct (negb (ret =? 0)) eqn:Hret.
    { left. exists line, c', uart'. repeat split; try assumption.
      intros buf. rewrite (recv_loop_step _ _ _ _ _ _ _ _ _ _ Hpoll), Hret.
      reflexivity. }
    destruct (Nat.leb_spec (MAX_CMD_LEN - 1) (length line)) as [Hge|Hlt].
    { right. left. exists line, uart'. repeat split; try assumption; [lia|].
      intros buf. rewrite (recv_loop_step _ _ _ _ _ _ _ _ _ _ Hpoll), Hret.
      destruct (Nat.leb_spec (MAX_CMD_LEN - 1) (length line)); [|lia].
      reflexivity. }
    destruct (Ascii.eqb c' LF || Ascii.eqb c' NUL) eqn:Heol.
    { left. exists line, c', uart'. repeat split; try assumption.
      intros buf. rewrite (recv_loop_step _ _ _ _ _ _ _ _ _ _ Hpoll), Hret.
      destruct (Nat.leb_spec (MAX_CMD_LEN - 1) (length line)); [lia|].
      rewrite Heol. reflexivity. }
    assert (Hstep : forall buf,
      recv_loop uart_poll_in (S fuel) uart (store 0 line buf) (length line) c
      = recv_loop uart_poll_in fuel uart' (store 0 (line ++ [c']) buf)
          (length (line ++ [c'])) c').
    { intros buf. rewrite (recv_loop_step _ _ _ _ _ _ _ _ _ _ Hpoll), Hret.
      destruct (Nat.leb_spec (MAX_CMD_LEN - 1) (length line)); [lia|].
      rewrite Heol, store_snoc, length_app. cbn [length Nat.add].
      rewrite Nat.add_1_r. reflexivity. }
    destruct (IH uart' (line ++ [c']) c') as [H|[H|H]].
    + apply Forall_app. split; [assumption|].
      constructor; [apply eqb_plain; assumption | constructor].
    + rewrite length_app. cbn [length]. lia.
    + destruct H as (line' & c'' & uart'' & Hp & Hl & Hrun).
      left. exists line', c'', uart''. repeat split; try assumption.
      intros buf. rewrite Hstep. apply Hrun.
    + destruct H as (line' & uart'' & Hp & Hl & Hrun).
      right. left. exists line', uart''. repeat split; try assumption.
      intros buf. rewrite Hstep. apply Hrun.
    + right. right. intros buf. rewrite Hstep. apply H.
Qed.

(** [recv_line] on a device, for all arrays at once. *)
Lemma recv_line_lines uart :
  (exists uart',
     forall buf, recv_line uart_poll_in uart buf = Some (- ENODATA, buf, uart')) \/
  (exists line uart',
     Forall plain line /\ (length line <= MAX_CMD_LEN - 1)%nat /\
     forall buf,
       recv_line uart_poll_in uart buf
       = Some (0, <[length line := NUL]> (store 0 line buf), uart')) \/
  (exists line uart',
     Forall plain line /\ length line = (MAX_CMD_LEN - 1)%nat /\
     forall buf,
       recv_line uart_poll_in uart buf
       = Some (- EOVERFLOW, store 0 line buf, uart')).
Proof.
  unfold recv_line.
  destruct (recv_loop_lines MAX_CMD_LEN uart [] NUL) as [H|[H|H]];
    [constructor | cbn [length]; lia | | | ].
  - destruct H as (line & c & uart' & Hp & Hl & Hrun).
    cbn [store length] in Hrun.
    destruct ((length line =? 0)%nat && Ascii.eqb c NUL) eqn:Hempty.
    + left. exists uart'. intros buf. rewrite Hrun, Hempty.
      apply andb_prop in Hempty as [Hzero _].
      apply Nat.eqb_eq in Hzero. destruct line; [reflexivity|discriminate].
    + right. left. exists line, uart'. repeat split; try assumption.
      intros buf. rewrite Hrun, Hempty. reflexivity.
  - destruct H as (line & uart' & Hp & Hl & Hrun).
    cbn [store length] in Hrun.
    right. right. exists line, uart'. repeat split; try assumption.
    intros buf. rewrite Hrun. reflexivity.
  - exfalso. specialize (H []). cbn [store length] in H.
    destruct (recv_loop_total Uart uart_poll_in (pred MAX_CMD_LEN) uart []
                0%nat NUL) as [e He]; [unfold MAX_CMD_LEN; lia|].
    change (S (pred MAX_CMD_LEN)) with MAX_CMD_LEN in He. congruence.
Qed.

(** X1.  [recv_line] always returns, whatever the device does, and what
    it returns is 0, [-ENODATA] or [-EOVERFLOW]: no other value, and in
    particular no return value of [uart_poll_in], comes out of it. *)
Theorem recv_line_returns uart buf :
  exists ret buf' uart',
    recv_line uart_poll_in uart buf = Some (ret, buf', uart') /\
    (ret = 0 \/ ret = - ENODATA \/ ret = - EOVERFLOW).
Proof.
  destruct (recv_line_lines uart) as [H|[H|H]].
  - destruct H as (uart' & Hrun). exists (- ENODATA), buf, uart'. auto.
  - destruct H as (line & uart' & _ & _ & Hrun).
    exists 0, (<[length line := NUL]> (store 0 line buf)), uart'. auto.
  - destruct H as (line & uart' & _ & _ & Hrun).
    exists (- EOVERFLOW), (store 0 line buf), uart'. auto.
Qed.

(** X2.  When [recv_line] returns 0, the array holds a C string: a line of
    at most [MAX_CMD_LEN - 1] characters, none of them a line feed or a
    NUL, followed by the NUL; the characters of the array behind that NUL
    are as they were. *)
Theorem recv_line_ok_line uart buf buf' uart' :
  length buf = MAX_CMD_LEN ->
  recv_line uart_poll_in uart buf = Some (0, buf', uart') ->
  exists line,
    Forall plain line /\ (length line <= MAX_CMD_LEN - 1)%nat /\
    buf' = line ++ NUL :: drop (S (length line)) buf /\
    cstr buf' = line.
Proof.
  intros Hbuf Hrun.
  destruct (recv_line_lines uart) as [H|[H|H]].
  - destruct H as (u & Hu). rewrite Hu in Hrun. discriminate.
  - destruct H as (line & u & Hp & Hl & Hu). rewrite Hu in Hrun.
    injection Hrun as <- _.
    exists line. rewrite terminate_stored by (unfold MAX_CMD_LEN in *; lia).
    rewrite cstr_terminated by assumption. auto.
  - destruct H as (line & u & _ & _ & Hu). rewrite Hu in Hrun. discriminate.
Qed.

(** X3.  When [recv_line] returns [-ENODATA], it has written nothing: the
    array is as the caller passed it, not even terminated. *)
Theorem recv_line_empty_untouched uart buf buf' uart' :
  recv_line uart_poll_in uart buf = Some (- ENODATA, buf', uart') ->
  buf' = buf.
Proof.
  intros Hrun.
  destruct (recv_line_lines uart) as [H|[H|H]].
  - destruct H as (u & Hu). rewrite Hu in Hrun. congruence.
  - destruct H as (line & u & _ & _ & Hu). rewrite Hu in Hrun. discriminate.
  - destruct H as (line & u & _ & _ & Hu). rewrite Hu in Hrun. discriminate.
Qed.

(** X4.  When [recv_line] returns [-EOVERFLOW], the first
    [MAX_CMD_LEN - 1] characters of the array are the characters read,
    none of them a line feed or a NUL, and the last one is as it was: the
    array is full and not terminated. *)
Theorem recv_line_overflow_line uart buf buf' uart' :
  length buf = MAX_CMD_LEN ->
  recv_line uart_poll_in uart buf = Some (- EOVERFLOW, buf', uart') ->
  exists line,
    Forall plain line /\ length line = (MAX_CMD_LEN - 1)%nat /\
    buf' = line ++ drop (MAX_CMD_LEN - 1) buf.
Proof.
  intros Hbuf Hrun.
  destruct (recv_line_lines uart) as [H|[H|H]].
  - destruct H as (u & Hu). rewrite Hu in Hrun. discriminate.
  - destruct H as (line & u & _ & _ & Hu). rewrite Hu in Hrun. discriminate.
  - destruct H as (line & u & Hp & Hl & Hu). rewrite Hu in Hrun.
    injection Hrun as <- _.
    exists line. rewrite store_from_start by (unfold MAX_CMD_LEN in *; lia).
    rewrite Hl. auto.
Qed.

End LineReaderShape.

(** ** Rendered command lines *)

Lemma digit_char_plain (d : Z) : 0 <= d < 10 -> plain (digit_char d).
Proof.
  intros Hd.
  assert (Hcases : d = 0 \/ d = 1 \/ d = 2 \/ d = 3 \/ d = 4 \/
                   d = 5 \/ d = 6 \/ d = 7 \/ d = 8 \/ d = 9) by lia.
  repeat (destruct Hcases as [-> | Hcases]; [split; discriminate|]).
  subst d. split; discriminate.
Qed.

Lemma show_digits_plain (fuel : nat) :
  forall n acc,
    0 <= n -> Forall plain acc -> Forall plain (show_digits fuel n acc).
Proof.
  induction fuel as [|fuel IH]; intros n acc Hn Hacc; cbn [show_digits].
  - exact Hacc.
  - assert (Hd : Forall plain (digit_char (n mod 10) :: acc)).
    { constructor; [|exact Hacc].
      apply digit_char_plain, Z.mod_pos_bound. lia. }
    destruct (n / 10 =? 0); [exact Hd|].
    apply IH; [apply Z.div_pos; lia | exact Hd].
Qed.

Lemma show_digits_length (fuel : nat) :
  forall n acc,
    (length (show_digits fuel n acc) <= fuel + length acc)%nat.
Proof.
  induction fuel as [|fuel IH]; intros n acc; cbn [show_digits].
  - lia.
  - destruct (n / 10 =? 0); [cbn [length]; lia|].
    etransitivity; [apply IH|]. cbn [length]. lia.
Qed.

Lemma show_int_plain (z : Z) : Forall plain (show_int z).
Proof.
  unfold show_int, show_nat. destruct (Z.ltb_spec z 0).
  - constructor; [split; discriminate|].
    apply show_digits_plain; [lia | constructor].
  - apply show_digits_plain; [lia | constructor].
Qed.

Lemma show_nat_length (n : Z) :
  0 <= n <= 2 ^ 31 -> (length (show_nat n) <= 32)%nat.
Proof.
  intros Hn. unfold show_nat.
  etransitivity; [apply show_digits_length|]. cbn [length].
  assert (Hlog : Z.log2 n <= 31).
  { change 31 with (Z.log2 (2 ^ 31)). apply Z.log2_le_mono. lia. }
  pose proof (Z.log2_nonneg n). lia.
Qed.

Lemma show_int_length (z : Z) :
  in_int z -> (length (show_int z) <= 33)%nat.
Proof.
  unfold in_int, INT_MIN, INT_MAX, show_int. intros Hz.
  destruct (Z.ltb_spec z 0).
  - cbn [length]. pose proof (show_nat_length (- z) ltac:(lia)). lia.
  - pose proof (show_nat_length z ltac:(lia)). lia.
Qed.

Lemma render_plain (e : event) : Forall plain (render e).
Proof.
  destruct e; unfold render, command_line, arg_text; cbn [map concat app];
    repeat first
      [ apply Forall_app; split; [apply show_int_plain|]
      | constructor; [split; discriminate|]
      | constructor ].
Qed.

Lemma render_length (e : event) :
  event_in_int e -> (0 < length (render e) < MAX_CMD_LEN - 1)%nat.
Proof.
  unfold MAX_CMD_LEN.
  destruct e as [row col|row col|ms]; cbn [event_in_int];
    unfold render, command_line, arg_text; cbn [map concat app length];
    rewrite ?length_app; cbn [length]; rewrite ?length_app; cbn [length].
  - intros [Hr Hc]. pose proof (show_int_length _ Hr).
    pose proof (show_int_length _ Hc). lia.
  - intros [Hr Hc]. pose proof (show_int_length _ Hr).
    pose proof (show_int_length _ Hc). lia.
  - intros Hm. pose proof (show_int_length _ Hm). lia.
Qed.

(** The parser on a rendered event. *)
Lemma kscan_parse_command_render (e : event) (args0 : Z * Z) :
  event_in_int e ->
  kscan_parse_command (render e) args0 =
    match e with
    | Press row col => (char_code "p", (row, col))
    | Release row col => (char_code "r", (row, col))
    | Wait ms => (char_code "w", (ms, snd args0))
    end.
Proof.
  destruct e as [row col|row col|ms]; cbn [event_in_int render].
  - intros [Hr Hc].
    rewrite kscan_parse_command_key by (auto; repeat constructor; assumption).
    reflexivity.
  - intros [Hr Hc].
    rewrite kscan_parse_command_key by (auto; repeat constructor; assumption).
    reflexivity.
  - intros Hm.
    change (command_line "w" [ms]) with (lit "w " ++ show_int ms ++ []).
    apply kscan_parse_command_wait; [assumption | exact I].
Qed.

(** ** Whole ticks *)

Section TickFacts.

Variable Uart : Type.
Variable uart_poll_in : Uart -> ascii -> Z * ascii * Uart.
Variable callback_fn : Type.

(** The handler reads the array as a C string and nothing more. *)
Lemma run_command_cstr config (data : kscan_ptty_data callback_fn)
    (uart : Uart) cmd1 cmd2 :
  cstr cmd1 = cstr cmd2 ->
  run_command config data uart cmd1 = run_command config data uart cmd2.
Proof. intros Heq. unfold run_command. rewrite Heq. reflexivity. Qed.

Lemma cstr_full_line (line buf : list ascii) :
  Forall plain line ->
  length line = (MAX_CMD_LEN - 1)%nat ->
  length buf = MAX_CMD_LEN ->
  cstr (<[(MAX_CMD_LEN - 1)%nat := NUL]> (store 0 line buf)) = line.
Proof.
  intros Hp Hl Hbuf. rewrite <- Hl.
  rewrite terminate_stored by (unfold MAX_CMD_LEN in *; lia).
  apply cstr_terminated. assumption.
Qed.

(** X5.  The work handler does not depend on what its local array [cmd]
    holds on entry: two runs that differ only in those 128 characters do
    the same, so nothing is read from the array before it is written. *)
Theorem work_handler_ignores_stack config (data : kscan_ptty_data callback_fn)
    uart cmd1 cmd2 :
  length cmd1 = MAX_CMD_LEN ->
  length cmd2 = MAX_CMD_LEN ->
  kscan_ptty_work_handler uart_poll_in config data uart cmd1
  = kscan_ptty_work_handler uart_poll_in config data uart cmd2.
Proof.
  intros H1 H2. unfold kscan_ptty_work_handler.
  destruct (recv_line_lines Uart uart_poll_in uart) as [H|[H|H]].
  - destruct H as (u & Hu). rewrite !Hu. reflexivity.
  - destruct H as (line & u & Hp & Hl & Hu). rewrite !Hu.
    unfold on_recv_line.
    change (0 =? - ENODATA) with false. change (0 =? - EOVERFLOW) with false.
    change (0 =? 0) with true. cbv iota.
    f_equal. apply run_command_cstr.
    rewrite !terminate_stored by (unfold MAX_CMD_LEN in *; lia).
    rewrite !cstr_terminated by assumption. reflexivity.
  - destruct H as (line & u & Hp & Hl & Hu). rewrite !Hu.
    unfold on_recv_line.
    change (- EOVERFLOW =? - ENODATA) with false.
    change (- EOVERFLOW =? - EOVERFLOW) with true. cbv iota.
    rewrite !cstr_full_line by assumption. reflexivity.
Qed.

(** X6.  In one run the work handler calls the callback at most once and
    schedules the work item at most once.  A callback it calls is the one
    registered in the driver data, and the run that calls it goes on to
    schedule the work item after [delay_ms] and returns.  The handler never
    changes the registered callback. *)
Theorem tick_discipline config (data : kscan_ptty_data callback_fn)
    uart cmd t :
  kscan_ptty_work_handler uart_poll_in config data uart cmd = Some t ->
  (length (List.filter is_call (effects t)) <= 1)%nat /\
  (length (List.filter is_schedule (effects t)) <= 1)%nat /\
  (forall f row col pressed,
     In (call f row col pressed) (effects t) ->
     callback data = Some f /\
     In (k_work_schedule (delay_ms config)) (effects t) /\
     outcome t = Returns) /\
  callback (data_after t) = callback data.
Proof.
  unfold kscan_ptty_work_handler.
  destruct (recv_line uart_poll_in uart cmd) as [[[err cmd'] uart']|];
    [|discriminate].
  intros Ht. injection Ht as <-.
  unfold on_recv_line, run_command.
  destruct (kscan_parse_command (cstr cmd') (-1, -1)) as [ret [arg0 arg1]].
  destruct (err =? - ENODATA); [|destruct (err =? - EOVERFLOW);
    [|destruct (err =? 0);
      [destruct (ret =? char_code "p");
        [|destruct (ret =? char_code "r");
          [|destruct (ret =? char_code "w")]]|]]];
    try destruct (callback data) as [g|] eqn:Hcb;
    cbn [effects outcome data_after next_cmd callback List.filter is_call
         is_schedule length In];
    (split; [lia | split; [lia | split; [|congruence]]]);
    intros f row col pressed Hin;
    repeat (destruct Hin as [Hin|Hin]; try discriminate Hin);
    try contradiction;
    injection Hin as <- _ _ _; repeat split; auto.
Qed.

(** X7.  The work handler ends the process in two ways only, and in both
    it leaves the driver data alone and neither calls the callback nor
    schedules the work item: with status 0, when [exit_after] is set and
    its single effect is the message that all commands are processed; with
    status 1, when its single effect is the error message for a line too
    long, quoting [MAX_CMD_LEN - 1] characters.  The exit for an unknown
    reading error is never taken. *)
Theorem exit_statuses config (data : kscan_ptty_data callback_fn)
    uart cmd t status :
  length cmd = MAX_CMD_LEN ->
  kscan_ptty_work_handler uart_poll_in config data uart cmd = Some t ->
  outcome t = Exits status ->
  data_after t = data /\
  ((status = 0 /\ exit_after config = true /\
    effects t = [LOG_INF all_commands_processed]) \/
   (status = 1 /\
    exists line,
      length line = (MAX_CMD_LEN - 1)%nat /\
      effects t = [LOG_ERR (command_too_long line)])).
Proof.
  intros Hcmd. unfold kscan_ptty_work_handler.
  destruct (recv_line_lines Uart uart_poll_in uart) as [H|[H|H]].
  - destruct H as (u & Hu). rewrite Hu. intros Ht. injection Ht as <-.
    unfold on_recv_line. change (- ENODATA =? - ENODATA) with true.
    cbv iota. cbn [outcome data_after effects].
    destruct (exit_after config); [|discriminate].
    intros Hst. injection Hst as <-.
    split; [reflexivity|]. left. repeat split.
  - destruct H as (line & u & _ & _ & Hu). rewrite Hu.
    intros Ht. injection Ht as <-.
    unfold on_recv_line, run_command.
    change (0 =? - ENODATA) with false. change (0 =? - EOVERFLOW) with false.
    change (0 =? 0) with true. cbv iota.
    destruct (kscan_parse_command _ _) as [ret [arg0 arg1]].
    destruct (ret =? char_code "p"); [|destruct (ret =? char_code "r");
      [|destruct (ret =? char_code "w")]];
      try destruct (callback data); discriminate.
  - destruct H as (line & u & Hp & Hl & Hu). rewrite Hu.
    intros Ht. injection Ht as <-.
    unfold on_recv_line.
    change (- EOVERFLOW =? - ENODATA) with false.
    change (- EOVERFLOW =? - EOVERFLOW) with true. cbv iota.
    cbn [outcome data_after effects].
    intros Hst. injection Hst as <-.
    rewrite cstr_full_line by assumption.
    split; [reflexivity|]. right. split; [reflexivity|].
    exists line. split; [assumption | reflexivity].
Qed.

(** X8.  An empty line stops the simulator.  When the first character to
    arrive is a line feed, the work handler reads the empty line, logs it
    as an invalid command and returns without scheduling the work item. *)
Theorem blank_line_halts config (data : kscan_ptty_data callback_fn)
    uart uart' cmd :
  uart_poll_in uart NUL = (0, LF, uart') ->
  kscan_ptty_work_handler uart_poll_in config data uart cmd
  = Some {| effects := [LOG_ERR (invalid_command [])];
            outcome := Returns;
            data_after := data; uart_after := uart' |}.
Proof.
  intros Hpoll. unfold kscan_ptty_work_handler, recv_line.
  change MAX_CMD_LEN with (S (pred MAX_CMD_LEN)) at 1.
  rewrite (recv_loop_step _ _ _ _ _ _ _ _ _ _ Hpoll).
  change (Some (on_recv_line config data uart' 0 (<[0%nat := NUL]> cmd))
          = Some {| effects := [LOG_ERR (invalid_command [])];
                    outcome := Returns;
                    data_after := data; uart_after := uart' |}).
  assert (Hcstr : cstr (<[0%nat := NUL]> cmd) = [])
    by (destruct cmd; reflexivity).
  unfold on_recv_line, run_command. rewrite Hcstr. reflexivity.
Qed.

(** X9.  The handler calls [data->callback] without testing it.  If a key
    line is read while no callback is registered, which
    [kscan_ptty_enable_callback] makes possible by scheduling the work
    item without one, the run ends in a call of the null pointer, after
    the debug message and before anything is scheduled. *)
Theorem key_without_callback config (data : kscan_ptty_data callback_fn)
    uart cmd cmd' uart' row col :
  callback data = None ->
  recv_line uart_poll_in uart cmd = Some (0, cmd', uart') ->
  (parsed_event (cstr cmd') = Some (Press row col) ->
   kscan_ptty_work_handler uart_poll_in config data uart cmd
   = Some {| effects := [LOG_DBG (cmd_key (cmd_idx data) true row col)];
             outcome := NullCall;
             data_after := next_cmd data; uart_after := uart' |}) /\
  (parsed_event (cstr cmd') = Some (Release row col) ->
   kscan_ptty_work_handler uart_poll_in config data uart cmd
   = Some {| effects := [LOG_DBG (cmd_key (cmd_idx data) false row col)];
             outcome := NullCall;
             data_after := next_cmd data; uart_after := uart' |}).
Proof.
  intros Hcb Hrun. unfold kscan_ptty_work_handler. rewrite Hrun.
  unfold on_recv_line, run_command, parsed_event.
  change (0 =? - ENODATA) with false. change (0 =? - EOVERFLOW) with false.
  change (0 =? 0) with true. cbv iota. rewrite Hcb.
  destruct (kscan_parse_command (cstr cmd') (-1, -1)) as [ret [arg0 arg1]].
  destruct (ret =? char_code "p"); [|destruct (ret =? char_code "r");
    [|destruct (ret =? char_code "w")]];
    split; intros Hev; try discriminate Hev;
    injection Hev as -> ->; reflexivity.
Qed.

(** X10.  One run of the work handler takes one command off the stream.
    When the characters of a rendered event arrive, followed by a line
    feed or a NUL, the handler does what the event says (a press or a
    release is passed to the callback and the work item is scheduled after
    [delay_ms]; a wait schedules it after its duration), counts the
    command and leaves the device just behind the terminator. *)
Theorem tick_consumes_one_command config (data : kscan_ptty_data callback_fn)
    f e uart c1 uart1 t uart2 cmd :
  length cmd = MAX_CMD_LEN ->
  callback data = Some f ->
  event_in_int e ->
  yields uart_poll_in uart NUL (render e) c1 uart1 ->
  uart_poll_in uart1 c1 = (0, t, uart2) ->
  t = LF \/ t = NUL ->
  kscan_ptty_work_handler uart_poll_in config data uart cmd
  = Some {| effects := event_effects (cmd_idx data) f (delay_ms config) e;
            outcome := Returns;
            data_after := next_cmd data; uart_after := uart2 |}.
Proof.
  intros Hcmd Hcb He Hy Hpoll Ht.
  pose proof (render_plain e) as Hplain.
  pose proof (render_length e He) as Hlen.
  unfold kscan_ptty_work_handler.
  rewrite (recv_line_ended Uart uart_poll_in uart (render e) c1 uart1 0 t
             uart2 cmd Hcmd Hy Hplain Hpoll)
    by (right; repeat split; [lia | exact Ht]).
  destruct (Nat.eqb_spec (length (render e)) 0) as [Hzero|_]; [lia|].
  cbn [andb]. unfold on_recv_line, run_command.
  change (0 =? - ENODATA) with false. change (0 =? - EOVERFLOW) with false.
  change (0 =? 0) with true. cbv iota.
  rewrite cstr_terminated by assumption.
  rewrite kscan_parse_command_render by assumption. rewrite Hcb.
  destruct e; reflexivity.
Qed.

End TickFacts.

(** ** The command parser on every line *)

Lemma scan_two_arguments (c : ascii) (s : cstring) :
  let r := scan [Ordinary c; WhiteSpace; ConvD; WhiteSpace; ConvD] s [] in
  r = (EOF, []) \/ r = (0, []) \/
  (exists a, r = (1, [a])) \/ (exists a b, r = (2, [a; b])).
Proof.
  cbv zeta. cbn [scan]. destruct s as [|c' s]; [auto|].
  destruct (Ascii.eqb c c'); [|auto].
  destruct (conv_d (skip_space s)) as [a rest| |]; [|auto|auto].
  destruct (conv_d (skip_space rest)) as [b rest'| |]; cbn; eauto 10.
Qed.

Lemma scan_one_argument (c : ascii) (s : cstring) :
  let r := scan [Ordinary c; WhiteSpace; ConvD] s [] in
  r = (EOF, []) \/ r = (0, []) \/ (exists a, r = (1, [a])).
Proof.
  cbv zeta. cbn [scan]. destruct s as [|c' s]; [auto|].
  destruct (Ascii.eqb c c'); [|auto].
  destruct (conv_d (skip_space s)) as [a rest| |]; cbn; eauto 10.
Qed.

(** X11.  The parser returns [-EINVAL] or the tag [cmd[0]], which is then
    one of [p], [r] and [w]; when it returns [-EINVAL] it has left [args]
    as it found it, and for [w] it never touches [args[1]]. *)
Theorem kscan_parse_command_outcome (cmd : cstring) (args : Z * Z) :
  let ret := fst (kscan_parse_command cmd args) in
  let args' := snd (kscan_parse_command cmd args) in
  (ret = - EINVAL /\ args' = args) \/
  (ret = char_code (first_char cmd) /\
   (first_char cmd = "p"%char \/ first_char cmd = "r"%char \/
    first_char cmd = "w"%char /\ snd args' = snd args)).
Proof.
  unfold kscan_parse_command, sscanf.
  destruct (Ascii.eqb_spec (first_char cmd) "p") as [-> | _];
    [|destruct (Ascii.eqb_spec (first_char cmd) "r") as [-> | _];
      [|destruct (Ascii.eqb_spec (first_char cmd) "w") as [-> | _]]].
  - change (directives (lit "p %d %d"))
      with [Ordinary "p"; WhiteSpace; ConvD; WhiteSpace; ConvD].
    destruct (scan_two_arguments "p" cmd)
      as [-> | [-> | [[a ->] | (a & b & ->)]]]; cbn; auto 10.
  - change (directives (lit "r %d %d"))
      with [Ordinary "r"; WhiteSpace; ConvD; WhiteSpace; ConvD].
    destruct (scan_two_arguments "r" cmd)
      as [-> | [-> | [[a ->] | (a & b & ->)]]]; cbn; auto 10.
  - change (directives (lit "w %d")) with [Ordinary "w"; WhiteSpace; ConvD].
    destruct (scan_one_argument "w" cmd) as [-> | [-> | [a ->]]]; cbn; auto 10.
  - cbn. auto.
Qed.

(** X12.  A line that does not begin with [p], [r] or [w], the empty line
    included, is rejected with [-EINVAL] whatever follows, and [args] is
    not touched. *)
Theorem unknown_tag_rejected (cmd : cstring) (args : Z * Z) :
  first_char cmd <> "p"%char ->
  first_char cmd <> "r"%char ->
  first_char cmd <> "w"%char ->
  kscan_parse_command cmd args = (- EINVAL, args).
Proof.
  intros Hp Hr Hw. unfold kscan_parse_command.
  apply Ascii.eqb_neq in Hp, Hr, Hw. rewrite Hp, Hr, Hw. reflexivity.
Qed.

(** X13.  The argument count of a key line.  For [p] and [r] followed by
    integer arguments: none is rejected, one gives the row with column 0,
    and of two or more the first two are the row and the column, the
    others being ignored. *)
Theorem parse_key_arguments (tag : ascii) (args : list Z) :
  tag = "p"%char \/ tag = "r"%char ->
  Forall in_int args ->
  parsed_event (command_line tag args) =
    let key := if Ascii.eqb tag "p" then Press else Release in
    match args with
    | [] => None
    | [row] => Some (key row 0)
    | row :: col :: _ => Some (key row col)
    end.
Proof.
  intros Htag Hargs. unfold parsed_event.
  rewrite kscan_parse_command_key by assumption.
  destruct Htag as [-> | ->]; destruct args as [|row [|col args]]; reflexivity.
Qed.

Lemma skip_space_blank (ws s : cstring) :
  blank ws -> skip_space (ws ++ s) = skip_space s.
Proof.
  induction 1 as [|c ws Hc _ IH]; [reflexivity|].
  cbn [app skip_space]. rewrite Hc. exact IH.
Qed.

Lemma isspace_not_digit (c : ascii) : isspace c = true -> isdigit c = false.
Proof.
  unfold isspace, isdigit. intros Hsp.
  destruct (Z.leb_spec 48 (char_code c)); [|reflexivity].
  destruct (Z.eqb_spec (char_code c) 32); [lia|].
  destruct (Z.leb_spec 9 (char_code c)); [|discriminate].
  destruct (Z.leb_spec (char_code c) 13); [lia|discriminate].
Qed.

Lemma no_digit_ahead_blank (ws s : cstring) :
  blank ws -> ws <> [] -> no_digit_ahead (ws ++ s).
Proof.
  intros Hws Hne. destruct Hws as [|c ws Hc _]; [congruence|].
  apply isspace_not_digit. exact Hc.
Qed.

Lemma scan_numeral_blank fmt (ws : cstring) (a : Z) (rest : cstring)
    (vals : list Z) :
  blank ws -> in_int a -> no_digit_ahead rest ->
  scan (WhiteSpace :: ConvD :: fmt) (ws ++ show_int a ++ rest) vals
  = scan fmt rest (vals ++ [a]).
Proof.
  intros Hws Ha Hrest. cbn [scan].
  rewrite skip_space_blank, skip_space_show_int, conv_d_show_int
    by assumption.
  reflexivity.
Qed.

(** X14.  White space in a key line is free.  Between the tag and the row
    there may be any run of white space, none included ([p3 4]); between
    the row and the column any run that is not empty; and whatever follows
    the column is ignored. *)
Theorem parse_key_white_space (tag : ascii) (ws1 ws2 : cstring) (R C : Z)
    (rest : cstring) (args : Z * Z) :
  tag = "p"%char \/ tag = "r"%char ->
  blank ws1 -> blank ws2 -> ws2 <> [] ->
  in_int R -> in_int C -> no_digit_ahead rest ->
  kscan_parse_command (tag :: ws1 ++ show_int R ++ ws2 ++ show_int C ++ rest)
    args
  = (char_code tag, (R, C)).
Proof.
  intros Htag H1 H2 Hne HR HC Hrest.
  assert (Hscan :
    scan [WhiteSpace; ConvD; WhiteSpace; ConvD]
      (ws1 ++ show_int R ++ ws2 ++ show_int C ++ rest) []
    = (2, [R; C])).
  { rewrite scan_numeral_blank
      by (assumption || apply no_digit_ahead_blank; assumption).
    rewrite scan_numeral_blank by assumption. reflexivity. }
  unfold kscan_parse_command, sscanf.
  destruct Htag as [-> | ->]; cbn [first_char hd];
    [change (directives (lit "p %d %d"))
       with [Ordinary "p"; WhiteSpace; ConvD; WhiteSpace; ConvD]
    |change (directives (lit "r %d %d"))
       with [Ordinary "r"; WhiteSpace; ConvD; WhiteSpace; ConvD]];
    cbn [Ascii.eqb Bool.eqb orb]; rewrite scan_ordinary, Hscan; reflexivity.
Qed.

(** ** The further properties at concrete inputs *)

Lemma recv_line_ok_line_witness :
  exists line,
    Forall plain line /\ (length line <= MAX_CMD_LEN - 1)%nat /\
    lit "p 1" ++ NUL :: drop 4 fresh_cmd
    = line ++ NUL :: drop (S (length line)) fresh_cmd /\
    cstr (lit "p 1" ++ NUL :: drop 4 fresh_cmd) = line.
Proof.
  refine (recv_line_ok_line (list poll) script_poll_in
            (chars "p 1" ++ [Arrives LF]) fresh_cmd
            (lit "p 1" ++ NUL :: drop 4 fresh_cmd) [] _ _);
    reflexivity.
Defined.

Lemma recv_line_empty_untouched_witness :
  recv_line script_poll_in [Arrives NUL; Arrives NUL] fresh_cmd
  = Some (- ENODATA, fresh_cmd, [Arrives NUL]) /\
  fresh_cmd = fresh_cmd.
Proof.
  split; [reflexivity|].
  refine (recv_line_empty_untouched (list poll) script_poll_in
            [Arrives NUL; Arrives NUL] fresh_cmd fresh_cmd [Arrives NUL] _).
  reflexivity.
Defined.

Lemma recv_line_overflow_line_witness :
  exists line,
    Forall plain line /\ length line = (MAX_CMD_LEN - 1)%nat /\
    repeat "a"%char 127 ++ ["?"%char]
    = line ++ drop (MAX_CMD_LEN - 1) fresh_cmd.
Proof.
  refine (recv_line_overflow_line (list poll) script_poll_in
            (map Arrives (repeat "a"%char 200)) fresh_cmd
            (repeat "a"%char 127 ++ ["?"%char])
            (map Arrives (repeat "a"%char 72)) _ _).
  - reflexivity.
  - vm_compute. reflexivity.
Defined.

Lemma work_handler_ignores_stack_witness :
  kscan_ptty_work_handler script_poll_in
    {| delay_ms := 10; exit_after := true |}
    {| callback := Some 7%nat; cmd_idx := 0 |}
    (chars "r 1 2" ++ [Arrives LF]) fresh_cmd
  = kscan_ptty_work_handler script_poll_in
      {| delay_ms := 10; exit_after := true |}
      {| callback := Some 7%nat; cmd_idx := 0 |}
      (chars "r 1 2" ++ [Arrives LF]) (repeat NUL MAX_CMD_LEN).
Proof.
  refine (work_handler_ignores_stack (list poll) script_poll_in nat
            {| delay_ms := 10; exit_after := true |}
            {| callback := Some 7%nat; cmd_idx := 0 |}
            (chars "r 1 2" ++ [Arrives LF]) fresh_cmd
            (repeat NUL MAX_CMD_LEN) _ _);
    reflexivity.
Defined.

Lemma tick_discipline_witness :
  let t := {| effects := [LOG_DBG (cmd_key 0 false 1 2); call 7%nat 1 2 false;
                          k_work_schedule 10];
              outcome := Returns;
              data_after := {| callback := Some 7%nat; cmd_idx := 1 |};
              uart_after := @nil poll |} in
  (length (List.filter is_call (effects t)) <= 1)%nat /\
  (length (List.filter is_schedule (effects t)) <= 1)%nat /\
  (forall f row col pressed,
     In (call f row col pressed) (effects t) ->
     Some 7%nat = Some f /\
     In (k_work_schedule 10) (effects t) /\
     outcome t = Returns) /\
  callback (data_after t) = Some 7%nat.
Proof.
  refine (tick_discipline (list poll) script_poll_in nat
            {| delay_ms := 10; exit_after := true |}
            {| callback := Some 7%nat; cmd_idx := 0 |}
            (chars "r 1 2" ++ [Arrives LF]) fresh_cmd _ _).
  reflexivity.
Defined.

Lemma exit_statuses_witness :
  {| callback := Some 7%nat; cmd_idx := 0 |}
  = {| callback := Some 7%nat; cmd_idx := 0 |} /\
  ((1 = 0 /\ false = true /\
    [LOG_ERR (command_too_long (repeat "a"%char 127))]
    = [@LOG_INF nat all_commands_processed]) \/
   (1 = 1 /\
    exists line,
      length line = (MAX_CMD_LEN - 1)%nat /\
      [@LOG_ERR nat (command_too_long (repeat "a"%char 127))]
      = [LOG_ERR (command_too_long line)])).
Proof.
  refine (exit_statuses (list poll) script_poll_in nat
            {| delay_ms := 10; exit_after := false |}
            {| callback := Some 7%nat; cmd_idx := 0 |}
            (map Arrives (repeat "a"%char 200)) fresh_cmd
            {| effects := [LOG_ERR (command_too_long (repeat "a"%char 127))];
               outcome := Exits 1;
               data_after := {| callback := Some 7%nat; cmd_idx := 0 |};
               uart_after := map Arrives (repeat "a"%char 72) |}
            1 _ _ _).
  - reflexivity.
  - vm_compute. reflexivity.
  - reflexivity.
Defined.

Lemma blank_line_halts_witness :
  kscan_ptty_work_handler script_poll_in
    {| delay_ms := 10; exit_after := true |}
    {| callback := Some 7%nat; cmd_idx := 0 |}
    (Arrives LF :: chars "p 1 2") fresh_cmd
  = Some {| effects := [LOG_ERR (invalid_command [])];
            outcome := Returns;
            data_after := {| callback := Some 7%nat; cmd_idx := 0 |};
            uart_after := chars "p 1 2" |}.
Proof.
  refine (blank_line_halts (list poll) script_poll_in nat
            {| delay_ms := 10; exit_after := true |}
            {| callback := Some 7%nat; cmd_idx := 0 |}
            (Arrives LF :: chars "p 1 2") (chars "p 1 2") fresh_cmd _).
  reflexivity.
Defined.

Lemma key_without_callback_witness :
  kscan_ptty_work_handler script_poll_in
    {| delay_ms := 10; exit_after := true |}
    {| callback := @None nat; cmd_idx := 0 |}
    (chars "p 1 2" ++ [Arrives LF]) fresh_cmd
  = Some {| effects := [LOG_DBG (cmd_key 0 true 1 2)];
            outcome := NullCall;
            data_after := {| callback := None; cmd_idx := 1 |};
            uart_after := [] |}.
Proof.
  refine (proj1 (key_without_callback (list poll) script_poll_in nat
            {| delay_ms := 10; exit_after := true |}
            {| callback := None; cmd_idx := 0 |}
            (chars "p 1 2" ++ [Arrives LF]) fresh_cmd
            (lit "p 1 2" ++ NUL :: drop 6 fresh_cmd) [] 1 2 _ _) _);
    reflexivity.
Defined.

Lemma tick_consumes_one_command_witness :
  kscan_ptty_work_handler script_poll_in
    {| delay_ms := 10; exit_after := true |}
    {| callback := Some 7%nat; cmd_idx := 4 |}
    (chars "w -50" ++ Arrives LF :: chars "r 1 2") fresh_cmd
  = Some {| effects := [LOG_DBG (cmd_wait 4 (-50)); k_work_schedule (-50)];
            outcome := Returns;
            data_after := {| callback := Some 7%nat; cmd_idx := 5 |};
            uart_after := chars "r 1 2" |}.
Proof.
  refine (tick_consumes_one_command (list poll) script_poll_in nat
            {| delay_ms := 10; exit_after := true |}
            {| callback := Some 7%nat; cmd_idx := 4 |} 7%nat (Wait (-50))
            (chars "w -50" ++ Arrives LF :: chars "r 1 2") "0"%char
            (Arrives LF :: chars "r 1 2") LF (chars "r 1 2") fresh_cmd
            _ _ _ _ _ _).
  - reflexivity.
  - reflexivity.
  - unfold event_in_int, in_int, INT_MIN, INT_MAX. lia.
  - vm_compute. repeat econstructor.
  - reflexivity.
  - left. reflexivity.
Defined.

Lemma unknown_tag_rejected_witness :
  kscan_parse_command (lit "x 1 2") (-1, -1) = (- EINVAL, (-1, -1)).
Proof.
  refine (unknown_tag_rejected (lit "x 1 2") (-1, -1) _ _ _); discriminate.
Defined.

Lemma parse_key_arguments_witness :
  parsed_event (lit "r 1 2 3") = Some (Release 1 2).
Proof.
  refine (parse_key_arguments "r" [1; 2; 3] _ _).
  - right. reflexivity.
  - repeat constructor; unfold INT_MIN, INT_MAX; lia.
Defined.

Lemma parse_key_white_space_witness :
  kscan_parse_command (lit "p3   -4;") (-1, -1) = (char_code "p", (3, -4)).
Proof.
  refine (parse_key_white_space "p" [] (lit "   ") 3 (-4) (lit ";") (-1, -1)
            _ _ _ _ _ _ _).
  - left. reflexivity.
  - constructor.
  - repeat constructor.
  - discriminate.
  - unfold in_int, INT_MIN, INT_MAX. lia.
  - unfold in_int, INT_MIN, INT_MAX. lia.
  - reflexivity.
Defined.

(** ** Wait lines *)






